(** * Telegram signal pipeline

    A shallow embedding of [signal_parser.py], [state.py], [webhook_client.py]
    and [pipeline.py], and the properties of the specification checked
    against it; then the functions of [telegram_export.py] that work on
    strings and on the attributes of a sender, an entity or a message.

    Python values are embedded as follows.
    - [str] is [string]; a character is an [ascii], and [str.upper] acts on
      the ASCII letters.
    - the objects [json.load] and [json.loads] build are values of [json];
      a [dict] keeps insertion order, so it is an association list whose
      keys are pairwise distinct.
    - [float] is the binary64 type [float] of the kernel.
    - an exception is a value of [exn]; code that may raise returns a
      [result], and code that also reads or writes the state file or talks to
      the webhook is a function of the [world].

    The collaborators are inputs: the message source is a [TelegramClient],
    the extraction service an [anthropic_client] (the answer to a prompt),
    the delivery endpoint an [endpoint] (the answer to a request, given the
    requests before it), and the three library functions the extractor
    applies to strings are the fields of [Library].

    [parse_message] and [run_pipeline] are first defined for any prompt
    template ([parse_message_with], [run_pipeline_with]) and then taken at
    [PARSE_PROMPT].  The statements about accepted signals are proved for
    every template, because at [PARSE_PROMPT] itself no signal is ever
    accepted ([parse_message_never_accepts]): they are evaluated at
    [PARSE_PROMPT_escaped].

    Where the model stops short of Python:
    - a stored watermark that is not an int is a [TypeError] as soon as it is
      read by a run ([as_int]); Python goes on with a float or a bool;
    - [requests] is taken at version 2.27 or later, where the exception of
      [response.json()] derives from [RequestException];
    - a write of the state file succeeds, or fails at [open] and leaves the
      file as it was, or fails after [open] has emptied the file and leaves
      a file that is no JSON document; which of the three it is, is the
      same for every write of a run;
    - printing, and the [verbose] flag with it, is left out;
    - a character is below U+0100, so the classes of the regular expressions
      of [telegram_export.py] are taken on these characters: [\s] is the
      whitespace of [re] below U+0100, and what is not ASCII is 128 to 255;
    - the parser of the command line and the connection to Telegram are
      inputs of [main]: what [parse_args] returns or exits with, and the
      exception of connecting or disconnecting, if any;
    - [str.upper] and [str.strip] are taken on the characters below U+0100,
      and [str.upper] moves the ASCII letters only;
    - [format_message_to_markdown], [export_channel] and the [main] of
      [telegram_export.py], which format dates and write files, are left
      out. *)

From Stdlib Require Import ZArith String Ascii List Bool Lia Floats.
From Stdlib Require Import DecimalString DecimalPos DecimalZ.
Import ListNotations.

Open Scope string_scope.
Open Scope list_scope.
Open Scope Z_scope.

(* ===================================================================== *)
(** ** Exceptions and results *)
(* ===================================================================== *)

(** The three failures of the extraction service named by the specification;
    [anthropic.APIError] is their common base class. *)
Inductive api_error_kind : Type :=
| AuthenticationError
| RateLimitError
| APIConnectionError.

Inductive exn : Type :=
| KeyError
| IndexError
| ValueError
| TypeError
| AttributeError
| OverflowError
| JSONDecodeError
| UnicodeDecodeError
| IOError
| APIError (kind : api_error_kind)
| RequestException (msg : string)
| ChannelPrivateError
| KeyboardInterrupt.

(** [except Exception] catches every class but the ones that derive from
    [BaseException] only. *)
Definition is_Exception (e : exn) : bool :=
  match e with
  | KeyboardInterrupt => false
  | _ => true
  end.

Definition is_APIError (e : exn) : bool :=
  match e with
  | APIError _ => true
  | _ => false
  end.

Inductive result (A : Type) : Type :=
| Ok (a : A)
| Raise (e : exn).

Arguments Ok {A} a.
Arguments Raise {A} e.

Definition bind {A B : Type} (c : result A) (k : A -> result B) : result B :=
  match c with
  | Ok a => k a
  | Raise e => Raise e
  end.

Declare Scope result_scope.
Delimit Scope result_scope with result.
Notation "x <- c ;; k" := (bind c (fun x => k))
  (at level 100, c at next level, right associativity) : result_scope.
Open Scope result_scope.

(* ===================================================================== *)
(** ** Python values *)
(* ===================================================================== *)

#[local] Set Warnings "-register-all".

Inductive json : Type :=
| JNull
| JBool (b : bool)
| JInt (z : Z)
| JFloat (f : float)
| JStr (s : string)
| JList (l : list json)
| JDict (d : list (string * json)).

Definition is_empty (s : string) : bool :=
  match s with
  | EmptyString => true
  | String _ _ => false
  end.

(** [bool(v)]: [None], [False], zero, and the empty string, list and dict are
    false. *)
Definition truthy (v : json) : bool :=
  match v with
  | JNull => false
  | JBool b => b
  | JInt z => negb (z =? 0)
  | JFloat f => negb (PrimFloat.eqb f 0%float)
  | JStr s => negb (is_empty s)
  | JList l => match l with [] => false | _ :: _ => true end
  | JDict d => match d with [] => false | _ :: _ => true end
  end.

(** [v is False] *)
Definition is_False (v : json) : bool :=
  match v with
  | JBool false => true
  | _ => false
  end.

Fixpoint dict_lookup (k : string) (d : list (string * json)) : option json :=
  match d with
  | [] => None
  | (k', v) :: rest => if String.eqb k k' then Some v else dict_lookup k rest
  end.

(** [d[k] = v]: an existing key keeps its place, a new key goes last. *)
Fixpoint dict_set (k : string) (v : json) (d : list (string * json))
  : list (string * json) :=
  match d with
  | [] => [(k, v)]
  | (k', v') :: rest =>
      if String.eqb k k' then (k', v) :: rest else (k', v') :: dict_set k v rest
  end.

(** [d.get(k, default)] for a dict. *)
Definition dict_get (k : string) (default : json) (d : list (string * json))
  : json :=
  match dict_lookup k d with
  | Some x => x
  | None => default
  end.

(** [v.get(k, default)]; only a dict has the method. *)
Definition py_get (v : json) (k : string) (default : json) : result json :=
  match v with
  | JDict d => Ok (dict_get k default d)
  | _ => Raise AttributeError
  end.

(* ===================================================================== *)
(** ** Strings *)
(* ===================================================================== *)

Definition upper_char (c : ascii) : ascii :=
  let n := nat_of_ascii c in
  if ((97 <=? n) && (n <=? 122))%nat then ascii_of_nat (n - 32) else c.

Fixpoint upper (s : string) : string :=
  match s with
  | EmptyString => EmptyString
  | String c rest => String (upper_char c) (upper rest)
  end.

(** [v.upper()]; only a str has the method. *)
Definition py_upper (v : json) : result string :=
  match v with
  | JStr s => Ok (upper s)
  | _ => Raise AttributeError
  end.

(** [s[:n]] *)
Definition slice_to (n : nat) (s : string) : string := substring 0 n s.

(** The whitespace [str.strip] removes, below U+0100. *)
Definition is_space (c : ascii) : bool :=
  let n := nat_of_ascii c in
  (((9 <=? n) && (n <=? 13)) || ((28 <=? n) && (n <=? 32))
   || (n =? 133) || (n =? 160))%nat.

Fixpoint drop_spaces (l : list ascii) : list ascii :=
  match l with
  | [] => []
  | c :: rest => if is_space c then drop_spaces rest else l
  end.

(** [s.strip()] *)
Definition strip (s : string) : string :=
  string_of_list_ascii
    (rev (drop_spaces (rev (drop_spaces (list_ascii_of_string s))))).

(** [str(n)] for an int. *)
Definition str_of_int (n : Z) : string := NilZero.string_of_int (Z.to_int n).

Definition is_digit (c : ascii) : bool :=
  let n := nat_of_ascii c in ((48 <=? n) && (n <=? 57))%nat.

Fixpoint all_digits (s : string) : bool :=
  match s with
  | EmptyString => true
  | String c rest => is_digit c && all_digits rest
  end.

(* ===================================================================== *)
(** ** Numbers *)
(* ===================================================================== *)

(** [float(n)] for an int: the nearest binary64, [OverflowError] past the
    largest finite one. *)
Definition float_of_int (n : Z) : result float :=
  let f := SF2Prim (binary_normalize 53 1024 n 0 false) in
  if PrimFloat.is_infinity f then Raise OverflowError else Ok f.

(** [0.0 <= f <= 1.0] *)
Definition in_unit_interval (f : float) : bool :=
  PrimFloat.leb 0%float f && PrimFloat.leb f 1%float.

(* ===================================================================== *)
(** ** [str.format]

    The fragment the program uses: keyword arguments that are strings.
    Literal text is copied, [{{] and [}}] stand for one brace, and a
    replacement field runs from [{] to its closing brace.  The argument
    name is the field text before the first [.], [[], [!] or [:]; an empty or
    numeric name asks for a positional argument (there is none:
    [IndexError]), any other name is looked up among the keyword arguments
    ([KeyError] when absent).  A brace inside the name, a single closing
    brace, and a field left open are [ValueError].  For an argument that is
    present the string is substituted as it is: attribute and index
    suffixes, conversions and format specifications are read but not
    applied. *)
(* ===================================================================== *)

Inductive format_state : Type :=
| SLiteral                                  (* in literal text *)
| SOpen                                     (* just read an opening brace *)
| SClose                                    (* just read a closing brace *)
| SName (name : string)                     (* in a field name *)
| SIndex (name : string)                    (* between [ and ] of a field name *)
| SSpec (depth : nat) (name : string).      (* after ! or : of a field *)

Fixpoint kwargs_lookup (k : string) (kwargs : list (string * string))
  : option string :=
  match kwargs with
  | [] => None
  | (k', v) :: rest => if String.eqb k k' then Some v else kwargs_lookup k rest
  end.

(** The argument name of a field name: what comes before [.] or [[]. *)
Fixpoint arg_name (name : string) : string :=
  match name with
  | EmptyString => EmptyString
  | String c rest =>
      if (Ascii.eqb c "." || Ascii.eqb c "[")%bool then EmptyString
      else String c (arg_name rest)
  end.

Definition render_field (kwargs : list (string * string)) (name : string)
  : result string :=
  let a := arg_name name in
  if all_digits a then Raise IndexError
  else match kwargs_lookup a kwargs with
       | Some v => Ok v
       | None => Raise KeyError
       end.

Definition snoc (s : string) (c : ascii) : string :=
  (s ++ String c EmptyString)%string.

Definition format_step (kwargs : list (string * string))
  (st : format_state) (out : string) (c : ascii)
  : result (format_state * string) :=
  let in_name (name : string) :=
    if Ascii.eqb c "{" then Raise ValueError
    else if Ascii.eqb c "}" then
      v <- render_field kwargs name ;; Ok (SLiteral, (out ++ v)%string)
    else if (Ascii.eqb c ":" || Ascii.eqb c "!")%bool then Ok (SSpec 1 name, out)
    else if Ascii.eqb c "[" then Ok (SIndex (snoc name c), out)
    else Ok (SName (snoc name c), out) in
  match st with
  | SLiteral =>
      if Ascii.eqb c "{" then Ok (SOpen, out)
      else if Ascii.eqb c "}" then Ok (SClose, out)
      else Ok (SLiteral, snoc out c)
  | SOpen =>
      if Ascii.eqb c "{" then Ok (SLiteral, snoc out c)
      else in_name EmptyString
  | SClose =>
      if Ascii.eqb c "}" then Ok (SLiteral, snoc out c)
      else Raise ValueError
  | SName name => in_name name
  | SIndex name =>
      if Ascii.eqb c "]" then Ok (SName (snoc name c), out)
      else Ok (SIndex (snoc name c), out)
  | SSpec depth name =>
      if Ascii.eqb c "{" then Ok (SSpec (S depth) name, out)
      else if Ascii.eqb c "}" then
        match depth with
        | S (S d) => Ok (SSpec (S d) name, out)
        | _ => v <- render_field kwargs name ;; Ok (SLiteral, (out ++ v)%string)
        end
      else Ok (SSpec depth name, out)
  end.

Fixpoint format_from (kwargs : list (string * string))
  (st : format_state) (out : string) (template : string) : result string :=
  match template with
  | EmptyString =>
      match st with
      | SLiteral => Ok out
      | _ => Raise ValueError
      end
  | String c rest =>
      next <- format_step kwargs st out c ;;
      format_from kwargs (fst next) (snd next) rest
  end.

(** [template.format(k1=v1, k2=v2, ...)] *)
Definition py_format (template : string) (kwargs : list (string * string))
  : result string :=
  format_from kwargs SLiteral EmptyString template.

(* ===================================================================== *)
(** ** signal_parser.py *)
(* ===================================================================== *)

Record ParsedSignal : Type := {
  ticker : string;
  politician_name : json;
  transaction_type : string;
  amount_range : json;
  signal_date : json;
  confidence : float;
  raw_message : string
}.

Definition quote : string := String "034"%char EmptyString.
Definition newline : string := String "010"%char EmptyString.

(** [s] between double quotes. *)
Definition q (s : string) : string := (quote ++ s ++ quote)%string.

(** The lines of the prompt template.  The two braces around the JSON
    example of rules 1 and 2 are arguments: the repository writes them as
    single braces. *)
Definition prompt_lines (lbrace rbrace : string) : list string :=
  let not_a_signal := (lbrace ++ q "is_signal" ++ ": false" ++ rbrace)%string in
  [ "You are parsing politician stock trading signals from a Telegram channel.";
    EmptyString;
    "Extract the following from this message:";
    "- ticker: Stock symbol (e.g., NVDA, AAPL, MSFT). Must be uppercase.";
    ("- politician_name: Full name of the politician (e.g., "
       ++ q "Nancy Pelosi" ++ ", " ++ q "Dan Crenshaw" ++ ")")%string;
    ("- transaction_type: " ++ q "BUY" ++ " for purchases, "
       ++ q "SELL" ++ " for sales")%string;
    ("- amount_range: Dollar range if mentioned (e.g., " ++ q "$1K-$15K" ++ ", "
       ++ q "$50K-$100K" ++ ", " ++ q "$1M-$5M" ++ ")")%string;
    "- signal_date: Date of the transaction in ISO format (YYYY-MM-DD)";
    "- confidence: Your confidence in this extraction from 0.0 to 1.0";
    EmptyString;
    "IMPORTANT RULES:";
    ("1. If this is NOT a politician trading signal (e.g., general news, commentary), return: "
       ++ not_a_signal)%string;
    ("2. If you cannot confidently extract the ticker, return: "
       ++ not_a_signal)%string;
    ("3. For transaction_type, " ++ q "purchased" ++ ", " ++ q "bought" ++ ", "
       ++ q "acquired" ++ " = " ++ q "BUY" ++ "; " ++ q "sold" ++ ", "
       ++ q "sold off" ++ ", " ++ q "disposed" ++ " = " ++ q "SELL")%string;
    "4. If signal_date is not explicitly mentioned, use the message timestamp date";
    "5. Return ONLY valid JSON, no explanation or markdown";
    EmptyString;
    "Message:";
    "{message}";
    EmptyString;
    "Message timestamp: {timestamp}";
    EmptyString;
    "Return JSON:" ].

(** [PARSE_PROMPT], as the repository has it. *)
Definition PARSE_PROMPT : string := String.concat newline (prompt_lines "{" "}").

(** The same text with the braces of the JSON example doubled, which is how
    [str.format] is told to copy a brace. *)
Definition PARSE_PROMPT_escaped : string :=
  String.concat newline (prompt_lines "{{" "}}").

(** The library functions the extractor calls on strings. *)
Class Library : Type := {
  (** [json.loads(s)]; [None] stands for [json.JSONDecodeError] *)
  json_loads : string -> option json;
  (** the group of [re.search] for a fenced code block that holds a JSON
      object; [None] when nothing matches *)
  fenced_json : string -> option string;
  (** [float(s)] for a str; [None] stands for [ValueError] *)
  float_of_str : string -> option float
}.

(** One block of [response.content]; only a text block has [.text]. *)
Inductive content_block : Type :=
| TextBlock (text : string)
| ToolUseBlock.

(** What [client.messages.create] does for a prompt. *)
Inductive api_result : Type :=
| ApiRaises (e : exn)
| ApiMessage (content : list content_block).

Definition anthropic_client : Type := string -> api_result.

Definition messages_create (client : anthropic_client) (prompt : string)
  : result (list content_block) :=
  match client prompt with
  | ApiRaises e => Raise e
  | ApiMessage content => Ok content
  end.

(** [response.content[0].text] *)
Definition first_text (content : list content_block) : result string :=
  match content with
  | [] => Raise IndexError
  | TextBlock text :: _ => Ok text
  | ToolUseBlock :: _ => Raise AttributeError
  end.

Definition is_buy_or_sell (s : string) : bool :=
  (String.eqb s "BUY" || String.eqb s "SELL")%bool.

Section Extractor.

Context {lib : Library}.

(** [float(v)] *)
Definition py_float (v : json) : result float :=
  match v with
  | JFloat f => Ok f
  | JInt n => float_of_int n
  | JBool b => Ok (if b then 1%float else 0%float)
  | JStr s =>
      match float_of_str s with
      | Some f => Ok f
      | None => Raise ValueError
      end
  | JNull | JList _ | JDict _ => Raise TypeError
  end.

(** [parse_message], lines 84-94: the response text as JSON, else the JSON
    object of a fenced code block, else no signal. *)
Definition decode_response (response_text : string) : result (option json) :=
  match json_loads response_text with
  | Some data => Ok (Some data)
  | None =>
      match fenced_json response_text with
      | Some group =>
          match json_loads group with
          | Some data => Ok (Some data)
          | None => Raise JSONDecodeError
          end
      | None => Ok None
      end
  end.

(** [parse_message], lines 96-123: from the decoded payload to the record. *)
Definition parse_message_data (data : json) (message_text timestamp : string)
  : result (option ParsedSignal) :=
  is_signal <- py_get data "is_signal" JNull ;;
  if is_False is_signal then Ok None else
  ticker <- py_get data "ticker" JNull ;;
  if negb (truthy ticker) then Ok None else
  tt <- py_get data "transaction_type" (JStr EmptyString) ;;
  transaction_type <- py_upper tt ;;
  if negb (is_buy_or_sell transaction_type) then Ok None else
  sd <- py_get data "signal_date" JNull ;;
  let signal_date := if truthy sd then sd else JStr (slice_to 10 timestamp) in
  ticker_upper <- py_upper ticker ;;
  politician_name <- py_get data "politician_name" JNull ;;
  amount_range <- py_get data "amount_range" JNull ;;
  c <- py_get data "confidence" (JFloat 0.5%float) ;;
  confidence <- py_float c ;;
  Ok (Some {| ticker := ticker_upper;
              politician_name := politician_name;
              transaction_type := transaction_type;
              amount_range := amount_range;
              signal_date := signal_date;
              confidence := confidence;
              raw_message := slice_to 500 message_text |}).

(** [parse_message], lines 70-94: the payload the service sent for a
    message, when there is one. *)
Definition parse_message_payload (template : string) (client : anthropic_client)
  (message_text timestamp : string) : result (option json) :=
  prompt <- py_format template
              [("message", message_text); ("timestamp", timestamp)] ;;
  content <- messages_create client prompt ;;
  text <- first_text content ;;
  decode_response (strip text).

(** [parse_message] for a prompt template: the body of the [try], then the
    two [except] clauses, which both return [None]. *)
Definition parse_message_with (template : string) (client : anthropic_client)
  (message_text timestamp : string) : result (option ParsedSignal) :=
  let body :=
    payload <- parse_message_payload template client message_text timestamp ;;
    match payload with
    | None => Ok None
    | Some data => parse_message_data data message_text timestamp
    end in
  match body with
  | Ok r => Ok r
  | Raise e =>
      if is_APIError e then Ok None
      else if is_Exception e then Ok None
      else Raise e
  end.

Definition parse_message : anthropic_client -> string -> string
                           -> result (option ParsedSignal) :=
  parse_message_with PARSE_PROMPT.

End Extractor.

(* ===================================================================== *)
(** ** The world: the state file and the webhook

    [state_file] is what [open] and [json.load] find at [STATE_FILE];
    [state_writable] tells whether writing it succeeds; [state_truncates]
    tells where a write that fails does so: at [open], which leaves the file
    as it was, or, when it is set, after [open] has truncated the file (a
    full disk), which leaves the start of a document, or nothing, for
    [json.load] to reject; [requests] lists the POST requests sent so far,
    oldest first. *)
(* ===================================================================== *)

Inductive file : Type :=
| NoFile                     (* os.path.exists is false *)
| FileError (e : exn)        (* open or json.load raises e *)
| FileJson (content : json). (* json.load returns content *)

Record Payload : Type := {
  payload_api_key : string;
  payload_ticker : string;
  payload_politician_name : json;
  payload_transaction_type : string;
  payload_amount_range : json;
  payload_signal_date : json;
  payload_source : string;
  payload_raw_message : string
}.

Record world : Type := {
  state_file : file;
  state_writable : bool;
  state_truncates : bool;
  requests : list Payload
}.

Definition io (A : Type) : Type := world -> result A * world.

Definition io_ret {A : Type} (a : A) : io A := fun w => (Ok a, w).

Definition io_raise {A : Type} (e : exn) : io A := fun w => (Raise e, w).

Definition io_bind {A B : Type} (c : io A) (k : A -> io B) : io B :=
  fun w =>
    match c w with
    | (Ok a, w') => k a w'
    | (Raise e, w') => (Raise e, w')
    end.

Definition lift {A : Type} (c : result A) : io A := fun w => (c, w).

Declare Scope io_scope.
Delimit Scope io_scope with io.
Notation "x <~ c ;; k" := (io_bind c (fun x => k))
  (at level 100, c at next level, right associativity) : io_scope.
Open Scope io_scope.

(* ===================================================================== *)
(** ** state.py *)
(* ===================================================================== *)

Definition is_JSONDecodeError (e : exn) : bool :=
  match e with
  | JSONDecodeError => true
  | _ => false
  end.

Definition is_IOError (e : exn) : bool :=
  match e with
  | IOError => true
  | _ => false
  end.

Definition load_state : io json :=
  fun w =>
    match state_file w with
    | NoFile => (Ok (JDict []), w)
    | FileError e =>
        if (is_JSONDecodeError e || is_IOError e)%bool then (Ok (JDict []), w)
        else (Raise e, w)
    | FileJson content => (Ok content, w)
    end.

(** [open(STATE_FILE, "w")] empties the file before [json.dump] writes to
    it, and [except IOError] catches a failure of either: what a failed
    write leaves is the file as it was, or a file cut short. *)
Definition save_state (state : json) : io unit :=
  fun w =>
    if state_writable w
    then (Ok tt, {| state_file := FileJson state;
                    state_writable := state_writable w;
                    state_truncates := state_truncates w;
                    requests := requests w |})
    else if state_truncates w
    then (Ok tt, {| state_file := FileError JSONDecodeError;
                    state_writable := state_writable w;
                    state_truncates := state_truncates w;
                    requests := requests w |})
    else (Ok tt, w).

Definition get_last_message_id (channel_id : Z) : io json :=
  state <~ load_state ;;
  lift (channels <- py_get state "channels" (JDict []) ;;
        entry <- py_get channels (str_of_int channel_id) (JDict []) ;;
        py_get entry "last_message_id" (JInt 0)).

(** The lookups of [get_last_message_id] on a loaded document. *)
Definition read_watermark (channel_id : Z) (state : json) : result json :=
  channels <- py_get state "channels" (JDict []) ;;
  entry <- py_get channels (str_of_int channel_id) (JDict []) ;;
  py_get entry "last_message_id" (JInt 0).

(** The dict behind a value that is subscripted and assigned to; for
    anything else the subscript or the [in] test before it is a
    [TypeError]. *)
Definition as_dict (v : json) : result (list (string * json)) :=
  match v with
  | JDict d => Ok d
  | _ => Raise TypeError
  end.

(** [if k not in d: d[k] = {}] *)
Definition ensure_dict (k : string) (d : list (string * json))
  : list (string * json) :=
  match dict_lookup k d with
  | Some _ => d
  | None => dict_set k (JDict []) d
  end.

(** [d[k]] for a key that is present. *)
Definition dict_item (k : string) (d : list (string * json)) : result json :=
  match dict_lookup k d with
  | Some v => Ok v
  | None => Raise KeyError
  end.

Definition set_last_message_id (channel_id message_id : Z) : io unit :=
  state <~ load_state ;;
  state <~ lift (as_dict state) ;;
  let state := ensure_dict "channels" state in
  let channel_key := str_of_int channel_id in
  channels <~ lift (c <- dict_item "channels" state ;; as_dict c) ;;
  let channels := ensure_dict channel_key channels in
  entry <~ lift (e <- dict_item channel_key channels ;; as_dict e) ;;
  let entry := dict_set "last_message_id" (JInt message_id) entry in
  let channels := dict_set channel_key (JDict entry) channels in
  save_state (JDict (dict_set "channels" (JDict channels) state)).

(** [v + n] for an int [n]. *)
Definition py_add_int (v : json) (n : Z) : result json :=
  match v with
  | JInt z => Ok (JInt (z + n))
  | JBool b => Ok (JInt ((if b then 1 else 0) + n))
  | JFloat f => g <- float_of_int n ;; Ok (JFloat (f + g)%float)
  | JNull | JStr _ | JList _ | JDict _ => Raise TypeError
  end.

Definition get_processed_count : io json :=
  state <~ load_state ;;
  lift (py_get state "total_processed" (JInt 0)).

Definition increment_processed_count (count : Z) : io unit :=
  state <~ load_state ;;
  total <~ lift (t <- py_get state "total_processed" (JInt 0) ;;
                 py_add_int t count) ;;
  state <~ lift (as_dict state) ;;
  save_state (JDict (dict_set "total_processed" total state)).

(* ===================================================================== *)
(** ** webhook_client.py *)
(* ===================================================================== *)

Record WebhookClient : Type := {
  webhook_url : string;
  api_key : string;
  timeout : Z
}.

(** The body of an HTTP response: nothing, a JSON document, or bytes for
    which [response.json()] raises.  Since requests 2.27 that exception
    derives from [requests.RequestException]. *)
Inductive http_body : Type :=
| BodyEmpty
| BodyJson (document : json)
| BodyNotJson (msg : string).

(** What [requests.post] does for a request. *)
Inductive http_result : Type :=
| PostRaises (e : exn)
| HttpResponse (status : Z) (body : http_body).

(** The endpoint: its answer to a request, given the requests before it. *)
Definition endpoint : Type := list Payload -> Payload -> http_result.

Module Send.

(** The dict [send_signal] returns; [response] and [error] are the keys
    that may be absent. *)
Record send_result : Type := {
  status_code : Z;
  success : bool;
  response : option json;
  error : option string
}.

End Send.

Module Batch.

(** The dict [send_signals_batch] returns; an entry of [errors] is the
    ticker and the error message. *)
Record batch_results : Type := {
  total : Z;
  success : Z;
  failed : Z;
  duplicates : Z;
  errors : list (string * json)
}.

End Batch.

Definition make_payload (self : WebhookClient) (signal : ParsedSignal) : Payload :=
  {| payload_api_key := api_key self;
     payload_ticker := ticker signal;
     payload_politician_name := politician_name signal;
     payload_transaction_type := transaction_type signal;
     payload_amount_range := amount_range signal;
     payload_signal_date := signal_date signal;
     payload_source := "TELEGRAM";
     payload_raw_message := raw_message signal |}.

(** [response.json() if response.content else {}] *)
Definition response_json (body : http_body) : result json :=
  match body with
  | BodyEmpty => Ok (JDict [])
  | BodyJson document => Ok document
  | BodyNotJson msg => Raise (RequestException msg)
  end.

Definition send_signal (requests_post : endpoint) (self : WebhookClient)
  (signal : ParsedSignal) : io Send.send_result :=
  fun w =>
    let payload := make_payload self signal in
    let w' := {| state_file := state_file w;
                 state_writable := state_writable w;
                 state_truncates := state_truncates w;
                 requests := requests w ++ [payload] |} in
    let attempt :=
      match requests_post (requests w) payload with
      | PostRaises e => Raise e
      | HttpResponse status body =>
          document <- response_json body ;;
          Ok {| Send.status_code := status;
                Send.success := status =? 200;
                Send.response := Some document;
                Send.error := None |}
      end in
    match attempt with
    | Ok r => (Ok r, w')
    | Raise (RequestException msg) =>
        (Ok {| Send.status_code := 0;
               Send.success := false;
               Send.response := None;
               Send.error := Some msg |}, w')
    | Raise e => (Raise e, w')
    end.

(** [result.get("error") or result.get("response", {}).get("error", "Unknown error")] *)
Definition error_message (r : Send.send_result) : result json :=
  let e := match Send.error r with
           | Some msg => JStr msg
           | None => JNull
           end in
  if truthy e then Ok e
  else
    let response := match Send.response r with
                    | Some document => document
                    | None => JDict []
                    end in
    py_get response "error" (JStr "Unknown error").

Fixpoint send_signals_loop (requests_post : endpoint) (self : WebhookClient)
  (signals : list ParsedSignal) (results : Batch.batch_results)
  : io Batch.batch_results :=
  match signals with
  | [] => io_ret results
  | signal :: rest =>
      r <~ send_signal requests_post self signal ;;
      if Send.success r then
        send_signals_loop requests_post self rest
          {| Batch.total := Batch.total results;
             Batch.success := Batch.success results + 1;
             Batch.failed := Batch.failed results;
             Batch.duplicates := Batch.duplicates results;
             Batch.errors := Batch.errors results |}
      else if Send.status_code r =? 409 then
        send_signals_loop requests_post self rest
          {| Batch.total := Batch.total results;
             Batch.success := Batch.success results;
             Batch.failed := Batch.failed results;
             Batch.duplicates := Batch.duplicates results + 1;
             Batch.errors := Batch.errors results |}
      else
        error_msg <~ lift (error_message r) ;;
        send_signals_loop requests_post self rest
          {| Batch.total := Batch.total results;
             Batch.success := Batch.success results;
             Batch.failed := Batch.failed results + 1;
             Batch.duplicates := Batch.duplicates results;
             Batch.errors := Batch.errors results ++ [(ticker signal, error_msg)] |}
  end.

Definition send_signals_batch (requests_post : endpoint) (self : WebhookClient)
  (signals : list ParsedSignal) : io Batch.batch_results :=
  send_signals_loop requests_post self signals
    {| Batch.total := Z.of_nat (length signals);
       Batch.success := 0;
       Batch.failed := 0;
       Batch.duplicates := 0;
       Batch.errors := [] |}.

(* ===================================================================== *)
(** ** pipeline.py

    Printing is left out, and with it the [verbose] flag. *)
(* ===================================================================== *)

(** A message of the channel: [message.id], [message.text] (absent for a
    message without text) and [message.date.isoformat()]. *)
Record Message : Type := {
  message_id : Z;
  message_text : option string;
  message_date : string
}.

(** What [get_entity] does for a channel. *)
Inductive entity_result : Type :=
| EntityRaises (e : exn)
| Entity.

(** The message source: channel resolution, and the messages
    [iter_messages] yields for a [min_id], in the order it yields them. *)
Record TelegramClient : Type := {
  get_entity : Z -> entity_result;
  iter_messages : Z -> list Message
}.

Module Summary.

Record summary : Type := {
  total_messages : Z;
  signals_found : Z;
  signals_sent : Z;
  duplicates : Z;
  errors : Z
}.

End Summary.

(** What [run_pipeline] returns: the error dict or the summary dict. *)
Inductive run_result : Type :=
| RunError (error : string)
| RunSummary (results : Summary.summary).

(** [not message.text] *)
Definition no_text (m : Message) : bool :=
  match message_text m with
  | None => true
  | Some t => is_empty t
  end.

Definition text_of (m : Message) : string :=
  match message_text m with
  | None => EmptyString
  | Some t => t
  end.

(** [limit and count > limit] *)
Definition over_limit (limit : option Z) (count : Z) : bool :=
  match limit with
  | None => false
  | Some l => negb (l =? 0) && (count >? l)
  end.

(** The collection loop, lines 101-116: the messages left to read, the
    count, the messages kept and the largest id so far. *)
Fixpoint collect (limit : option Z) (messages : list Message) (count : Z)
  (messages_to_parse : list (Z * string * string)) (max_message_id : Z)
  : list (Z * string * string) * Z :=
  match messages with
  | [] => (messages_to_parse, max_message_id)
  | message :: rest =>
      if no_text message then
        collect limit rest count messages_to_parse max_message_id
      else
        let count := count + 1 in
        if over_limit limit count then (messages_to_parse, max_message_id)
        else
          collect limit rest count
            (messages_to_parse
               ++ [(message_id message, text_of message, message_date message)])
            (Z.max max_message_id (message_id message))
  end.

(** The watermark as the integer the message source is asked with.  The
    program only ever stores an int; for another value the run stops here. *)
Definition as_int (v : json) : result Z :=
  match v with
  | JInt z => Ok z
  | _ => Raise TypeError
  end.

Section Pipeline.

Context {lib : Library}.

(** The extraction loop, lines 134-141; [i] numbers the message, and
    [anthropic_client i] is the client at its turn. *)
Fixpoint parse_messages (template : string)
  (anthropic_client : nat -> anthropic_client) (i : nat)
  (messages_to_parse : list (Z * string * string))
  (signals : list ParsedSignal) : result (list ParsedSignal) :=
  match messages_to_parse with
  | [] => Ok signals
  | (_, text, timestamp) :: rest =>
      signal <- parse_message_with template (anthropic_client i) text timestamp ;;
      parse_messages template anthropic_client (S i) rest
        match signal with
        | Some s => signals ++ [s]
        | None => signals
        end
  end.

(** The delivery step, lines 148-174: the summary of the run, with the
    counts of the batch when there is one. *)
Definition deliver (requests_post : endpoint)
  (webhook_client : option WebhookClient) (dry_run : bool)
  (signals : list ParsedSignal) (total_messages : Z) : io Summary.summary :=
  let signals_found := Z.of_nat (length signals) in
  match signals, dry_run, webhook_client with
  | _ :: _, false, Some client =>
      webhook_results <~ send_signals_batch requests_post client signals ;;
      _ <~ increment_processed_count (Batch.success webhook_results) ;;
      io_ret {| Summary.total_messages := total_messages;
                Summary.signals_found := signals_found;
                Summary.signals_sent := Batch.success webhook_results;
                Summary.duplicates := Batch.duplicates webhook_results;
                Summary.errors := Batch.failed webhook_results |}
  | _, _, _ =>
      io_ret {| Summary.total_messages := total_messages;
                Summary.signals_found := signals_found;
                Summary.signals_sent := 0;
                Summary.duplicates := 0;
                Summary.errors := 0 |}
  end.

(** The commit step, lines 176-180. *)
Definition commit_watermark (channel_id : Z) (full_scan : bool)
  (min_id max_message_id : Z) : io unit :=
  if (negb full_scan && (max_message_id >? min_id))%bool
  then set_last_message_id channel_id max_message_id
  else io_ret tt.

Definition run_pipeline_with (template : string)
  (telegram_client : TelegramClient)
  (anthropic_client : nat -> anthropic_client)
  (requests_post : endpoint)
  (webhook_client : option WebhookClient)
  (channel_id : Z) (full_scan dry_run : bool) (limit : option Z)
  : io run_result :=
  min_id <~ (if full_scan then io_ret 0
             else v <~ get_last_message_id channel_id ;; lift (as_int v)) ;;
  match get_entity telegram_client channel_id with
  | EntityRaises ChannelPrivateError => io_ret (RunError "No access to channel")
  | EntityRaises e => io_raise e
  | Entity =>
      let collected :=
        collect limit (iter_messages telegram_client min_id) 0 [] min_id in
      let messages_to_parse := fst collected in
      let max_message_id := snd collected in
      match messages_to_parse with
      | [] =>
          io_ret (RunSummary {| Summary.total_messages := 0;
                                Summary.signals_found := 0;
                                Summary.signals_sent := 0;
                                Summary.duplicates := 0;
                                Summary.errors := 0 |})
      | _ :: _ =>
          signals <~ lift (parse_messages template anthropic_client 0
                             messages_to_parse []) ;;
          results <~ deliver requests_post webhook_client dry_run signals
                       (Z.of_nat (length messages_to_parse)) ;;
          _ <~ commit_watermark channel_id full_scan min_id max_message_id ;;
          io_ret (RunSummary results)
      end
  end.

Definition run_pipeline : TelegramClient -> (nat -> anthropic_client)
                          -> endpoint -> option WebhookClient -> Z
                          -> bool -> bool -> option Z -> io run_result :=
  run_pipeline_with PARSE_PROMPT.

End Pipeline.

(** The watermark of a channel as [get_last_message_id] reads it. *)
Definition watermark (channel_id : Z) (w : world) : result json :=
  fst (get_last_message_id channel_id w).


Section Runs.

Context {lib : Library}.



End Runs.

(* ===================================================================== *)
(** ** Payloads the validation rejects *)
(* ===================================================================== *)

(** The payload says [is_signal: false]. *)
Definition declares_not_a_signal (data : json) : Prop :=
  exists d, data = JDict d /\ dict_lookup "is_signal" d = Some (JBool false).

(** The payload has no ticker, or [null], or the empty string. *)
Definition ticker_missing_or_empty (data : json) : Prop :=
  exists d, data = JDict d /\
    (dict_lookup "ticker" d = None
     \/ dict_lookup "ticker" d = Some JNull
     \/ dict_lookup "ticker" d = Some (JStr EmptyString)).

(** The payload has no transaction type, or one that is not a string, or a
    string that in upper case is neither BUY nor SELL. *)
Definition action_not_permitted (data : json) : Prop :=
  exists d, data = JDict d /\
    (dict_lookup "transaction_type" d = None
     \/ (exists v, dict_lookup "transaction_type" d = Some v
                   /\ forall s, v <> JStr s)
     \/ (exists s, dict_lookup "transaction_type" d = Some (JStr s)
                   /\ upper s <> "BUY" /\ upper s <> "SELL")).

Definition rejected (data : json) : Prop :=
  declares_not_a_signal data \/ ticker_missing_or_empty data
  \/ action_not_permitted data.

(* ===================================================================== *)
(** ** Store contents and endpoint answers *)
(* ===================================================================== *)

(** The document has the layout of the state file and no watermark for the
    channel: no [channels], or no key for the channel under it, or no
    [last_message_id] under that key. *)
Definition no_entry (channel_id : Z) (content : json) : Prop :=
  exists d, content = JDict d /\
    (dict_lookup "channels" d = None
     \/ exists channels,
         dict_lookup "channels" d = Some (JDict channels) /\
         (dict_lookup (str_of_int channel_id) channels = None
          \/ exists entry,
              dict_lookup (str_of_int channel_id) channels = Some (JDict entry)
              /\ dict_lookup "last_message_id" entry = None)).

(** The answers of an endpoint that keeps to its interface: a transport
    error, or a response whose body is empty, not JSON, or a JSON object. *)
Definition well_behaved (r : http_result) : Prop :=
  match r with
  | PostRaises (RequestException _) => True
  | PostRaises _ => False
  | HttpResponse _ BodyEmpty => True
  | HttpResponse _ (BodyNotJson _) => True
  | HttpResponse _ (BodyJson (JDict _)) => True
  | HttpResponse _ (BodyJson _) => False
  end.

(** The three outcomes of a delivery. *)
Inductive outcome : Type :=
| Delivered
| Duplicate
| Failed (reason : json).

(** How [send_signals_batch] counts the dict [send_signal] returned. *)
Definition outcome_of (r : Send.send_result) : result outcome :=
  if Send.success r then Ok Delivered
  else if Send.status_code r =? 409 then Ok Duplicate
  else reason <- error_message r ;; Ok (Failed reason).

(** What one delivery adds to the counts of a batch of one signal. *)
Definition tally (signal : ParsedSignal) (o : outcome) : Batch.batch_results :=
  match o with
  | Delivered =>
      {| Batch.total := 1; Batch.success := 1; Batch.failed := 0;
         Batch.duplicates := 0; Batch.errors := [] |}
  | Duplicate =>
      {| Batch.total := 1; Batch.success := 0; Batch.failed := 0;
         Batch.duplicates := 1; Batch.errors := [] |}
  | Failed reason =>
      {| Batch.total := 1; Batch.success := 0; Batch.failed := 1;
         Batch.duplicates := 0; Batch.errors := [(ticker signal, reason)] |}
  end.

(** The reason of a failure that carries the text of an exception. *)
Definition exception_reason (msg : string) : json :=
  if is_empty msg then JStr "Unknown error" else JStr msg.

(** The world once [state] is written to the state file. *)
Definition written (state : json) (w : world) : world :=
  {| state_file := FileJson state;
     state_writable := state_writable w;
     state_truncates := state_truncates w;
     requests := requests w |}.

(** The world once a write has failed after [open] emptied the file: what is
    left of the file is no JSON document. *)
Definition damaged (w : world) : world :=
  {| state_file := FileError JSONDecodeError;
     state_writable := state_writable w;
     state_truncates := state_truncates w;
     requests := requests w |}.

(** The world once a write has failed. *)
Definition unwritten (w : world) : world :=
  if state_truncates w then damaged w else w.

(** No write fails after [open]: a write succeeds, or leaves the file as it
    was. *)
Definition keeps_on_failure (w : world) : Prop :=
  state_writable w = true \/ state_truncates w = false.

(* ===================================================================== *)
(** ** signal_parser.py: [batch_parse_messages] *)
(* ===================================================================== *)

Section BatchParse.

Context {lib : Library}.

(** The loop of [batch_parse_messages]; [i] numbers the message, and
    [client i] is the client at its turn. *)
Fixpoint batch_parse_loop (template : string) (client : nat -> anthropic_client)
  (i : nat) (messages : list (string * string)) (signals : list ParsedSignal)
  : result (list ParsedSignal) :=
  match messages with
  | [] => Ok signals
  | (message_text, timestamp) :: rest =>
      signal <- parse_message_with template (client i) message_text timestamp ;;
      batch_parse_loop template client (S i) rest
        match signal with
        | Some s => signals ++ [s]
        | None => signals
        end
  end.

Definition batch_parse_messages_with (template : string)
  (client : nat -> anthropic_client) (messages : list (string * string))
  : result (list ParsedSignal) :=
  batch_parse_loop template client 0 messages [].

Definition batch_parse_messages : (nat -> anthropic_client)
                                  -> list (string * string)
                                  -> result (list ParsedSignal) :=
  batch_parse_messages_with PARSE_PROMPT.

(** The signal of one call, as a list of none or one. *)
Definition accepted (o : result (option ParsedSignal)) : list ParsedSignal :=
  match o with
  | Ok (Some s) => [s]
  | _ => []
  end.

(** The signals [parse_message] accepts for the messages from number [i]
    on, in the order of the messages. *)
Fixpoint accepted_signals (template : string) (client : nat -> anthropic_client)
  (i : nat) (messages : list (string * string)) : list ParsedSignal :=
  match messages with
  | [] => []
  | (message_text, timestamp) :: rest =>
      accepted (parse_message_with template (client i) message_text timestamp)
        ++ accepted_signals template client (S i) rest
  end.

End BatchParse.

(* ===================================================================== *)
(** ** state.py and webhook_client.py: what is left *)
(* ===================================================================== *)

(** The counter of delivered signals as [get_processed_count] reads it. *)
Definition processed_count (w : world) : result json :=
  fst (get_processed_count w).

(** [WebhookClient(webhook_url, api_key)]: the timeout defaults to 30. *)
Definition new_WebhookClient (url key : string) : WebhookClient :=
  {| webhook_url := url; api_key := key; timeout := 30 |}.

(** The function [send_signal] of the module, beside the method. *)
Definition send_signal_function (requests_post : endpoint)
  (signal : ParsedSignal) (key url : string) : io Send.send_result :=
  send_signal requests_post (new_WebhookClient url key) signal.

(** The state [set_last_message_id] saves: [d] is the state it loaded,
    [channels] and [entry] the two dicts it found or made on the way. *)
Definition with_watermark (channel_id m : Z) (d channels entry : list (string * json))
  : json :=
  JDict (dict_set "channels"
           (JDict (dict_set (str_of_int channel_id)
                     (JDict (dict_set "last_message_id" (JInt m) entry))
                     (ensure_dict (str_of_int channel_id) channels)))
           (ensure_dict "channels" d)).

(** The state with the watermark of one channel and nothing else. *)
Definition only_watermark (channel_id m : Z) : json :=
  JDict [("channels",
          JDict [(str_of_int channel_id, JDict [("last_message_id", JInt m)])])].

(* ===================================================================== *)
(** ** pipeline.py: the collection in closed form, and [main] *)
(* ===================================================================== *)

(** The entry of [messages_to_parse] for a message. *)
Definition to_parse (m : Message) : Z * string * string :=
  (message_id m, text_of m, message_date m).

(** The first [limit] elements; all of them without a limit, and with the
    limit 0, which [if limit] takes for no limit. *)
Definition within_limit {A : Type} (limit : option Z) (l : list A) : list A :=
  match limit with
  | None => l
  | Some n => if n =? 0 then l else firstn (Z.to_nat n) l
  end.

(** [message.text] is truthy: the message is collected. *)
Definition has_text (m : Message) : bool := negb (no_text m).

(** The summary of a run that found no message to parse. *)
Definition empty_summary : Summary.summary :=
  {| Summary.total_messages := 0; Summary.signals_found := 0;
     Summary.signals_sent := 0; Summary.duplicates := 0; Summary.errors := 0 |}.

(** The id a run starts from: 0 for a full scan, the watermark otherwise. *)
Definition starts_from (channel_id : Z) (full_scan : bool) (w : world)
  (min_id : Z) : Prop :=
  if full_scan then min_id = 0 else watermark channel_id w = Ok (JInt min_id).

(** The parsed command line, without [--verbose]. *)
Record Args : Type := {
  args_full : bool;
  args_dry_run : bool;
  args_limit : option Z;
  args_channel : Z
}.

(** What [os.getenv] returns for the five settings. *)
Record Environ : Type := {
  API_ID : option string;
  API_HASH : option string;
  ANTHROPIC_API_KEY : option string;
  CHECKLISTER_WEBHOOK_URL : option string;
  CHECKLISTER_API_KEY : option string
}.

(** [not v] for a setting: unset, or empty. *)
Definition missing (v : option string) : bool :=
  match v with
  | None => true
  | Some s => is_empty s
  end.

Definition setting (v : option string) : string :=
  match v with
  | None => EmptyString
  | Some s => s
  end.

(** How [main] gets to the run: [sys.exit], the [ValueError] of
    [int(api_id)], or the clients. *)
Inductive startup : Type :=
| SystemExit (code : Z)
| IntRaises
| Started (api_id : Z) (api_hash anthropic_api_key : string)
    (webhook_client : option WebhookClient).

(** [main], lines 222-259; [int_of_str] is [int] on a str, [None] for its
    [ValueError]. *)
Definition main_startup (int_of_str : string -> option Z) (args : Args)
  (env : Environ) : startup :=
  if (missing (API_ID env) || missing (API_HASH env))%bool then SystemExit 1
  else if missing (ANTHROPIC_API_KEY env) then SystemExit 1
  else if (negb (args_dry_run args)
           && (missing (CHECKLISTER_WEBHOOK_URL env)
               || missing (CHECKLISTER_API_KEY env)))%bool then SystemExit 1
  else
    match int_of_str (setting (API_ID env)) with
    | None => IntRaises
    | Some api_id =>
        Started api_id (setting (API_HASH env)) (setting (ANTHROPIC_API_KEY env))
          (if (negb (args_dry_run args)
               && negb (missing (CHECKLISTER_WEBHOOK_URL env))
               && negb (missing (CHECKLISTER_API_KEY env)))%bool
           then Some (new_WebhookClient (setting (CHECKLISTER_WEBHOOK_URL env))
                        (setting (CHECKLISTER_API_KEY env)))
           else None)
    end.

(** The three checks of [main] before it prints its banner. *)
Definition credentials_missing (args : Args) (env : Environ) : bool :=
  (missing (API_ID env) || missing (API_HASH env)
   || missing (ANTHROPIC_API_KEY env)
   || (negb (args_dry_run args)
       && (missing (CHECKLISTER_WEBHOOK_URL env)
           || missing (CHECKLISTER_API_KEY env))))%bool.




Section Main.

Context {lib : Library}.


End Main.

(* ===================================================================== *)
(** ** telegram_export.py

    The functions that work on strings and on the attributes of a sender, an
    entity or a message.  A regular expression over one character class is a
    function on the list of characters. *)
(* ===================================================================== *)

(** The class [\s] of [re] for a str pattern, below U+0100. *)
Definition is_re_space (c : ascii) : bool :=
  let n := nat_of_ascii c in
  (((9 <=? n) && (n <=? 13)) || ((28 <=? n) && (n <=? 32))
   || (n =? 133) || (n =? 160))%nat.

Definition one_of (chars : list ascii) (c : ascii) : bool :=
  existsb (Ascii.eqb c) chars.

(** The class of whitespace and the hyphen. *)
Definition is_separator (c : ascii) : bool :=
  (is_re_space c || Ascii.eqb c "-")%bool.

(** The characters that are invalid in filenames. *)
Definition is_invalid (c : ascii) : bool :=
  one_of ["<"; ">"; ":"; "034"; "/"; "\"; "|"; "?"; "*"]%char c.

(** The class of what is not between [\x00] and [\x7F]. *)
Definition is_non_ascii (c : ascii) : bool := (128 <=? nat_of_ascii c)%nat.

Definition is_underscore (c : ascii) : bool := Ascii.eqb c "_".

(** The characters [strip] is given: the underscore and the dot. *)
Definition is_edge (c : ascii) : bool :=
  (Ascii.eqb c "_" || Ascii.eqb c ".")%bool.

(** [re.sub] of a class repeated once or more: every maximal run of
    characters of the class becomes [replacement].  [in_run] tells that the
    character before was of the class. *)
Fixpoint sub_runs (class : ascii -> bool) (replacement : list ascii)
  (in_run : bool) (l : list ascii) : list ascii :=
  match l with
  | [] => []
  | c :: rest =>
      if class c then
        if in_run then sub_runs class replacement true rest
        else replacement ++ sub_runs class replacement true rest
      else c :: sub_runs class replacement false rest
  end.

(** [re.sub] of a class by the empty string. *)
Definition delete (class : ascii -> bool) (l : list ascii) : list ascii :=
  filter (fun c => negb (class c)) l.

Fixpoint drop_while (class : ascii -> bool) (l : list ascii) : list ascii :=
  match l with
  | [] => []
  | c :: rest => if class c then drop_while class rest else l
  end.

(** [s.strip(chars)] *)
Definition strip_chars (class : ascii -> bool) (l : list ascii) : list ascii :=
  rev (drop_while class (rev (drop_while class l))).

(** The five steps of [sanitize_filename] on the characters of a name. *)
Definition sanitize (name : list ascii) : list ascii :=
  let name := sub_runs is_separator ["_"%char] false name in
  let name := delete is_invalid name in
  let name := delete is_non_ascii name in
  let name := sub_runs is_underscore ["_"%char] false name in
  strip_chars is_edge name.

Definition sanitize_filename (name : string) : string :=
  match sanitize (list_ascii_of_string name) with
  | [] => "unnamed_channel"
  | c :: rest => string_of_list_ascii (c :: rest)
  end.

(** A sender: nothing, a [User], a [Channel] or [Chat], or an object of
    another type, of which only [str(sender.id)] matters, when it has an
    [id]. *)
Inductive Sender : Type :=
| NoSender
| User (first_name last_name username : option string) (id : Z)
| ChannelOrChat (title : option string) (id : Z)
| OtherSender (id_text : option string).

(** [" ".join(parts)] *)
Fixpoint join_spaces (parts : list string) : string :=
  match parts with
  | [] => EmptyString
  | [p] => p
  | p :: rest => (p ++ " " ++ join_spaces rest)%string
  end.

Definition get_sender_name (sender : Sender) : string :=
  match sender with
  | NoSender => "Unknown"
  | User first_name last_name username id =>
      let parts :=
        (if missing first_name then [] else [setting first_name])
          ++ (if missing last_name then [] else [setting last_name]) in
      match parts with
      | _ :: _ =>
          let name := join_spaces parts in
          if missing username then name
          else (name ++ " (@" ++ setting username ++ ")")%string
      | [] =>
          if missing username then ("User " ++ str_of_int id)%string
          else ("@" ++ setting username)%string
      end
  | ChannelOrChat title id =>
      if missing title then ("Channel " ++ str_of_int id)%string
      else setting title
  | OtherSender (Some id_text) => id_text
  | OtherSender None => "Unknown"
  end.

(** The attributes of a resolved entity that [get_entity_info] reads; an
    attribute the entity does not have is [None]. *)
Record EntityInfo : Type := {
  entity_username : option string;
  entity_title : option string;
  entity_id : Z
}.

(** [get_entity_info] once the entity is resolved: the display name and the
    filename. *)
Definition get_entity_info (entity : EntityInfo) : string * string :=
  if negb (missing (entity_username entity)) then
    (("@" ++ setting (entity_username entity))%string,
     setting (entity_username entity))
  else if negb (missing (entity_title entity)) then
    (setting (entity_title entity),
     sanitize_filename (setting (entity_title entity)))
  else
    (("Channel " ++ str_of_int (entity_id entity))%string,
     ("channel_" ++ str_of_int (entity_id entity))%string).

(** An entity of a message: a URL in the text, a link behind the text, or
    another kind. *)
Inductive MessageEntity : Type :=
| MessageEntityUrl (offset length : nat)
| MessageEntityTextUrl (url : option string)
| OtherEntity.

(** What [extract_urls] reads of a message. *)
Record ExportMessage : Type := {
  export_text : option string;
  export_entities : option (list MessageEntity)
}.

(** [if url not in urls: urls.append(url)] *)
Definition add_url (url : string) (urls : list string) : list string :=
  if existsb (String.eqb url) urls then urls else urls ++ [url].

(** The loop over the entities of a message. *)
Fixpoint entity_urls (text : option string) (entities : list MessageEntity)
  (urls : list string) : list string :=
  match entities with
  | [] => urls
  | entity :: rest =>
      entity_urls text rest
        match entity with
        | MessageEntityUrl offset length =>
            if missing text then urls
            else add_url (substring offset length (setting text)) urls
        | MessageEntityTextUrl url =>
            if missing url then urls else add_url (setting url) urls
        | OtherEntity => urls
        end
  end.

(** The class of the URL pattern: what is not whitespace and not one of
    six delimiters. *)
Definition is_url_char (c : ascii) : bool :=
  negb (is_re_space c || one_of ["<"; ">"; "034"; "'"; ")"; "]"]%char c).

Fixpoint take_while (class : ascii -> bool) (l : list ascii) : list ascii :=
  match l with
  | [] => []
  | c :: rest => if class c then c :: take_while class rest else []
  end.

(** What is left of [l] after [prefix], when [l] starts with it. *)
Fixpoint after_prefix (prefix l : list ascii) : option (list ascii) :=
  match prefix, l with
  | [], _ => Some l
  | p :: prefix', c :: rest =>
      if Ascii.eqb p c then after_prefix prefix' rest else None
  | _ :: _, [] => None
  end.

(** The match of the URL pattern at the start of [l]: the scheme with its
    [s], or else without it, then one or more characters of the class. *)
Definition url_at (l : list ascii) : option (list ascii) :=
  let scheme (prefix : string) :=
    match after_prefix (list_ascii_of_string prefix) l with
    | Some rest =>
        match take_while is_url_char rest with
        | [] => None
        | c :: run => Some (list_ascii_of_string prefix ++ c :: run)
        end
    | None => None
    end in
  match scheme "https://" with
  | Some url => Some url
  | None => scheme "http://"
  end.

(** [re.finditer] of the URL pattern: the matches from left to right, none
    overlapping another.  [skip] counts the characters of the last match
    still to pass. *)
Fixpoint find_urls (skip : nat) (l : list ascii) : list string :=
  match l with
  | [] => []
  | c :: rest =>
      match skip with
      | S k => find_urls k rest
      | O =>
          match url_at l with
          | Some url =>
              string_of_list_ascii url :: find_urls (length url - 1) rest
          | None => find_urls 0 rest
          end
      end
  end.

Definition extract_urls (message : ExportMessage) : list string :=
  let urls :=
    match export_entities message with
    | Some (e :: entities) => entity_urls (export_text message) (e :: entities) []
    | _ => []
    end in
  if missing (export_text message) then urls
  else
    fold_left (fun urls url => add_url url urls)
      (find_urls 0 (list_ascii_of_string (setting (export_text message)))) urls.

(** No two underscores in a row; [after] tells that the character before
    was an underscore. *)
Fixpoint no_double (after : bool) (l : list ascii) : bool :=
  match l with
  | [] => true
  | c :: rest =>
      if is_underscore c then (negb after && no_double true rest)%bool
      else no_double false rest
  end.

(** A character the first three steps of [sanitize_filename] let through. *)
Definition is_clean (c : ascii) : bool :=
  (negb (is_separator c) && negb (is_invalid c) && negb (is_non_ascii c))%bool.

(** The shape of a name that [sanitize_filename] has nothing to do on. *)
Definition tidy (l : list ascii) : Prop :=
  Forall (fun c => is_clean c = true) l
  /\ no_double false l = true
  /\ (forall c, hd_error l = Some c -> is_edge c = false)
  /\ (forall c, hd_error (rev l) = Some c -> is_edge c = false).

(** The URLs an entity of a message stands for: none or one. *)
Definition entity_url (text : option string) (entity : MessageEntity)
  : list string :=
  match entity with
  | MessageEntityUrl offset length =>
      if missing text then [] else [substring offset length (setting text)]
  | MessageEntityTextUrl url => if missing url then [] else [setting url]
  | OtherEntity => []
  end.

(** The entities of a message, none when the attribute is [None]. *)
Definition entities_of (message : ExportMessage) : list MessageEntity :=
  match export_entities message with
  | Some entities => entities
  | None => []
  end.

(** The matches of the URL pattern in the text of a message. *)
Definition text_urls (message : ExportMessage) : list string :=
  if missing (export_text message) then []
  else find_urls 0 (list_ascii_of_string (setting (export_text message))).

(* ===================================================================== *)
(** ** Sample data

    Concrete collaborators and inputs on which the statements below are
    evaluated. *)
(* ===================================================================== *)

(** [k: v] as JSON text, for a value already written as text. *)
Definition member (k v : string) : string := (q k ++ ": " ++ v)%string.

(** The answer of the service to the message of Scenario A. *)
Definition sample_text : string :=
  ("{" ++ member "ticker" (q "nvda") ++ ", "
       ++ member "politician_name" (q "Rep. Smith") ++ ", "
       ++ member "transaction_type" (q "buy") ++ ", "
       ++ member "amount_range" (q "$50K-$100K") ++ ", "
       ++ member "signal_date" (q "2024-03-01") ++ ", "
       ++ member "confidence" "0.75" ++ "}")%string.

Definition sample_data : json :=
  JDict [("ticker", JStr "nvda");
         ("politician_name", JStr "Rep. Smith");
         ("transaction_type", JStr "buy");
         ("amount_range", JStr "$50K-$100K");
         ("signal_date", JStr "2024-03-01");
         ("confidence", JFloat 0.75%float)].

(** An answer without a date and with a confidence above one. *)
Definition eager_text : string :=
  ("{" ++ member "ticker" (q "NVDA") ++ ", "
       ++ member "transaction_type" (q "BUY") ++ ", "
       ++ member "confidence" "1.5" ++ "}")%string.

Definition eager_data : json :=
  JDict [("ticker", JStr "NVDA");
         ("transaction_type", JStr "BUY");
         ("confidence", JFloat 1.5%float)].

(** An answer whose confidence is [null]. *)
Definition unsure_text : string :=
  ("{" ++ member "ticker" (q "NVDA") ++ ", "
       ++ member "transaction_type" (q "BUY") ++ ", "
       ++ member "confidence" "null" ++ "}")%string.

Definition unsure_data : json :=
  JDict [("ticker", JStr "NVDA");
         ("transaction_type", JStr "BUY");
         ("confidence", JNull)].

(** An answer with the two required fields only. *)
Definition bare_text : string :=
  ("{" ++ member "ticker" (q "aapl") ++ ", "
       ++ member "transaction_type" (q "sell") ++ "}")%string.

Definition bare_data : json :=
  JDict [("ticker", JStr "aapl"); ("transaction_type", JStr "sell")].

(** The answer to a message that is no disclosure. *)
Definition not_a_signal_text : string :=
  ("{" ++ member "is_signal" "false" ++ "}")%string.

Definition not_a_signal_data : json := JDict [("is_signal", JBool false)].

Definition sample_documents : list (string * json) :=
  [(sample_text, sample_data);
   (eager_text, eager_data);
   (unsure_text, unsure_data);
   (bare_text, bare_data);
   (not_a_signal_text, not_a_signal_data)].

(** A library that decodes the sample answers and nothing else. *)
Definition sample_library : Library :=
  {| json_loads := fun s => dict_lookup s sample_documents;
     fenced_json := fun _ => None;
     float_of_str := fun _ => None |}.

(** A client that answers every prompt with one text block. *)
Definition answering (text : string) : anthropic_client :=
  fun _ => ApiMessage [TextBlock text].

(** A client whose call fails. *)
Definition failing (e : exn) : anthropic_client := fun _ => ApiRaises e.

Definition sample_message : string :=
  "Rep. Smith purchased $50K-$100K of NVDA on 2024-03-01".

Definition sample_timestamp : string := "2024-03-02T09:30:00+00:00".

(** A message of 600 characters. *)
Definition long_message : string :=
  string_of_list_ascii (repeat "a"%char 500 ++ repeat "b"%char 100).

(** The record of Scenario A. *)
Definition sample_signal : ParsedSignal :=
  {| ticker := "NVDA";
     politician_name := JStr "Rep. Smith";
     transaction_type := "BUY";
     amount_range := JStr "$50K-$100K";
     signal_date := JStr "2024-03-01";
     confidence := 0.75%float;
     raw_message := sample_message |}.

Definition eager_signal : ParsedSignal :=
  {| ticker := "NVDA";
     politician_name := JNull;
     transaction_type := "BUY";
     amount_range := JNull;
     signal_date := JStr "2024-03-02";
     confidence := 1.5%float;
     raw_message := sample_message |}.

Definition bare_signal : ParsedSignal :=
  {| ticker := "AAPL";
     politician_name := JNull;
     transaction_type := "SELL";
     amount_range := JNull;
     signal_date := JStr "2024-03-02";
     confidence := 0.5%float;
     raw_message := sample_message |}.

Definition sample_webhook : WebhookClient :=
  {| webhook_url := "https://checklister.example/api/webhook";
     api_key := "secret";
     timeout := 30 |}.

(** A store that does not exist yet, and can be written. *)
Definition fresh_world : world :=
  {| state_file := NoFile;
     state_writable := true;
     state_truncates := false;
     requests := [] |}.

(** An endpoint that answers every request the same way. *)
Definition always (r : http_result) : endpoint := fun _ _ => r.

(** An endpoint that accepts a payload once and reports a conflict when it
    is sent again. *)
Definition deduplicating : endpoint :=
  fun before payload =>
    if existsb (fun p => String.eqb (payload_ticker p) (payload_ticker payload)) before
    then HttpResponse 409 (BodyJson (JDict [("error", JStr "Duplicate signal")]))
    else HttpResponse 200 (BodyJson (JDict [("ok", JBool true)])).

(** What a JSON decoder says of a body that is plain text. *)
Definition decode_error : string := "Expecting value: line 1 column 1 (char 0)".

Definition sample_channel : Z := -1002481698957.

Definition text_message (id : Z) (text : string) : Message :=
  {| message_id := id; message_text := Some text; message_date := sample_timestamp |}.

(** A channel with three disclosures and a picture, newest first. *)
Definition sample_telegram : TelegramClient :=
  {| get_entity := fun _ => Entity;
     iter_messages := fun min_id =>
       filter (fun m => message_id m >? min_id)
         [ text_message 7 sample_message;
           {| message_id := 6; message_text := None; message_date := sample_timestamp |};
           text_message 5 sample_message;
           text_message 4 sample_message ] |}.

(** The state file after the watermark of the sample channel is set. *)
Definition state_with_watermark (id : Z) : json :=
  JDict [("channels", JDict [(str_of_int sample_channel,
                               JDict [("last_message_id", JInt id)])])].

Definition long_signal : ParsedSignal :=
  {| ticker := "NVDA";
     politician_name := JStr "Rep. Smith";
     transaction_type := "BUY";
     amount_range := JStr "$50K-$100K";
     signal_date := JStr "2024-03-01";
     confidence := 0.75%float;
     raw_message := string_of_list_ascii (repeat "a"%char 500) |}.

(** A store whose watermark for the sample channel is 4. *)
Definition resumed_world : world :=
  {| state_file := FileJson (state_with_watermark 4);
     state_writable := true;
     state_truncates := false;
     requests := [] |}.


(** A store with the watermark 4 whose file cannot be opened for writing. *)
Definition locked_world : world :=
  {| state_file := FileJson (state_with_watermark 4);
     state_writable := false;
     state_truncates := false;
     requests := [] |}.

(** A store with the watermark 4 on a full disk: the file can be opened for
    writing, which empties it, and nothing can then be written to it. *)
Definition full_disk_world : world :=
  {| state_file := FileJson (state_with_watermark 4);
     state_writable := false;
     state_truncates := true;
     requests := [] |}.

(** A store whose file is not valid UTF-8, and one whose document is a
    list. *)
Definition garbled_world : world :=
  {| state_file := FileError UnicodeDecodeError;
     state_writable := true;
     state_truncates := false;
     requests := [] |}.

Definition list_world : world :=
  {| state_file := FileJson (JList []);
     state_writable := true;
     state_truncates := false;
     requests := [] |}.

(** A store whose watermark is the newest message of the sample channel. *)
Definition caught_up_world : world :=
  {| state_file := FileJson (state_with_watermark 7);
     state_writable := true;
     state_truncates := false;
     requests := [] |}.

(** A message of an export with two links in its text, one of them marked
    by an entity, and a link behind a word. *)
Definition sample_export : ExportMessage :=
  {| export_text := Some "Filing (https://efts.sec.gov/doc?id=7) http://t.me/x now";
     export_entities := Some [MessageEntityUrl 8 29;
                              MessageEntityTextUrl (Some "https://example.org")] |}.

(** The summary of the live run on [resumed_world]. *)
Definition sample_summary : Summary.summary :=
  {| Summary.total_messages := 2; Summary.signals_found := 2;
     Summary.signals_sent := 1; Summary.duplicates := 1; Summary.errors := 0 |}.

(* ===================================================================== *)
(** ** Facts about strings *)
(* ===================================================================== *)

Lemma upper_char_idempotent (c : ascii) : upper_char (upper_char c) = upper_char c.
Proof. destruct c as [[] [] [] [] [] [] [] []]; reflexivity. Qed.

Lemma upper_idempotent (s : string) : upper (upper s) = upper s.
Proof.
  induction s as [|c s IH]; simpl.
  - reflexivity.
  - now rewrite upper_char_idempotent, IH.
Qed.

Lemma upper_length (s : string) : String.length (upper s) = String.length s.
Proof. induction s as [|c s IH]; simpl; congruence. Qed.

Lemma upper_empty (s : string) : upper s = EmptyString -> s = EmptyString.
Proof. destruct s; simpl; [reflexivity | discriminate]. Qed.

Lemma is_buy_or_sell_spec (s : string) :
  is_buy_or_sell s = true <-> s = "BUY" \/ s = "SELL".
Proof.
  unfold is_buy_or_sell. rewrite orb_true_iff, !String.eqb_eq. reflexivity.
Qed.

Lemma slice_to_length (n : nat) (s : string) :
  String.length (slice_to n s) = Nat.min n (String.length s).
Proof.
  unfold slice_to. revert s.
  induction n as [|n IH]; intros [|c s]; simpl; try reflexivity.
  now rewrite IH.
Qed.

Lemma slice_to_append (n : nat) (s : string) :
  exists rest, s = (slice_to n s ++ rest)%string.
Proof.
  unfold slice_to. revert s.
  induction n as [|n IH]; intros [|c s]; simpl.
  - now exists EmptyString.
  - now exists (String c s).
  - now exists EmptyString.
  - destruct (IH s) as [rest E]. exists rest. now rewrite <- E.
Qed.

Lemma slice_to_short (n : nat) (s : string) :
  (String.length s <= n)%nat -> slice_to n s = s.
Proof.
  unfold slice_to. revert s.
  induction n as [|n IH]; intros [|c s]; simpl; intros H; try reflexivity.
  - lia.
  - f_equal. apply IH. lia.
Qed.

(* ===================================================================== *)
(** ** Which exceptions the helpers raise

    All of them derive from [Exception]; the lemmas are the hints of
    [raises]. *)
(* ===================================================================== *)

Create HintDb raises.

Lemma bind_raise {A B : Type} (c : result A) (k : A -> result B) (e : exn) :
  bind c k = Raise e -> c = Raise e \/ exists a, c = Ok a /\ k a = Raise e.
Proof.
  destruct c as [a|e0]; simpl; intros H.
  - right. now exists a.
  - left. now injection H as ->.
Qed.

Lemma py_get_raise (v : json) (k : string) (default : json) (e : exn) :
  py_get v k default = Raise e -> is_Exception e = true.
Proof. destruct v; simpl; intros [= <-]; reflexivity. Qed.

Lemma py_upper_raise (v : json) (e : exn) :
  py_upper v = Raise e -> is_Exception e = true.
Proof. destruct v; simpl; intros [= <-]; reflexivity. Qed.

Lemma float_of_int_raise (n : Z) (e : exn) :
  float_of_int n = Raise e -> is_Exception e = true.
Proof.
  unfold float_of_int.
  destruct (PrimFloat.is_infinity _); intros [= <-]; reflexivity.
Qed.

Lemma render_field_raise (kwargs : list (string * string)) (name : string) (e : exn) :
  render_field kwargs name = Raise e -> is_Exception e = true.
Proof.
  unfold render_field.
  destruct (all_digits (arg_name name)); [intros [= <-]; reflexivity|].
  destruct (kwargs_lookup _ _); intros [= <-]; reflexivity.
Qed.

Lemma format_step_raise (kwargs : list (string * string)) (st : format_state)
  (out : string) (c : ascii) (e : exn) :
  format_step kwargs st out c = Raise e -> is_Exception e = true.
Proof.
  unfold format_step.
  destruct st; repeat match goal with
                      | |- context [if ?b then _ else _] => destruct b
                      | |- context [match ?d with O => _ | S _ => _ end] => destruct d
                      end;
    try (intros [= <-]; reflexivity); try discriminate;
    intros H; apply bind_raise in H as [H|(v & _ & H)];
    try discriminate H; eauto using render_field_raise.
Qed.

Lemma format_from_raise (kwargs : list (string * string)) (template : string) :
  forall (st : format_state) (out : string) (e : exn),
    format_from kwargs st out template = Raise e -> is_Exception e = true.
Proof.
  induction template as [|c template IH]; intros st out e H; simpl in H.
  - destruct st; try discriminate H; now injection H as <-.
  - apply bind_raise in H as [H|([st' out'] & _ & H)].
    + eauto using format_step_raise.
    + eauto.
Qed.

#[export] Hint Resolve py_get_raise py_upper_raise float_of_int_raise
  render_field_raise format_step_raise : raises.

(* ===================================================================== *)
(** ** The extractor *)
(* ===================================================================== *)

Section ExtractorFacts.
Context {lib : Library}.

Lemma py_float_raise (v : json) (e : exn) :
  py_float v = Raise e -> is_Exception e = true.
Proof.
  destruct v; simpl; try (intros [= <-]; reflexivity).
  - apply float_of_int_raise.
  - destruct (float_of_str s); intros [= <-]; reflexivity.
Qed.

Lemma decode_response_raise (response_text : string) (e : exn) :
  decode_response response_text = Raise e -> is_Exception e = true.
Proof.
  unfold decode_response.
  destruct (json_loads response_text); [discriminate|].
  destruct (fenced_json response_text) as [g|]; [|discriminate].
  destruct (json_loads g); intros [= <-]; reflexivity.
Qed.

Lemma parse_message_data_raise (data : json) (text ts : string) (e : exn) :
  parse_message_data data text ts = Raise e -> is_Exception e = true.
Proof.
  unfold parse_message_data. intros H.
  repeat match type of H with
         | bind _ _ = Raise _ =>
             apply bind_raise in H as [H|(? & _ & H)];
             [eauto using py_float_raise with raises|]
         | (if ?b then _ else _) = Raise _ => destruct b; [discriminate H|]
         end.
  discriminate H.
Qed.

(** What an accepted payload looks like, and the record built from it. *)
Lemma parse_message_data_some (data : json) (text ts : string) (r : ParsedSignal) :
  parse_message_data data text ts = Ok (Some r) ->
  exists d tk tt,
    data = JDict d /\
    is_False (dict_get "is_signal" JNull d) = false /\
    dict_get "ticker" JNull d = JStr tk /\ tk <> EmptyString /\
    dict_get "transaction_type" (JStr EmptyString) d = JStr tt /\
    is_buy_or_sell (upper tt) = true /\
    py_float (dict_get "confidence" (JFloat 0.5%float) d) = Ok (confidence r) /\
    r = {| ticker := upper tk;
           politician_name := dict_get "politician_name" JNull d;
           transaction_type := upper tt;
           amount_range := dict_get "amount_range" JNull d;
           signal_date :=
             (if truthy (dict_get "signal_date" JNull d)
              then dict_get "signal_date" JNull d
              else JStr (slice_to 10 ts));
           confidence := confidence r;
           raw_message := slice_to 500 text |}.
Proof.
  unfold parse_message_data.
  destruct data as [| | | | | |d]; simpl; try discriminate.
  destruct (is_False (dict_get "is_signal" JNull d)) eqn:Hsig; [discriminate|].
  destruct (truthy (dict_get "ticker" JNull d)) eqn:Htk; simpl; [|discriminate].
  destruct (dict_get "transaction_type" (JStr EmptyString) d) as [| | | |tt| |] eqn:Htt;
    simpl; try discriminate.
  destruct (is_buy_or_sell (upper tt)) eqn:Hbs; simpl; [|discriminate].
  destruct (dict_get "ticker" JNull d) as [| | | |tk| |] eqn:Etk; simpl; try discriminate.
  destruct (py_float (dict_get "confidence" (JFloat 0.5%float) d)) as [c|e] eqn:Hc;
    simpl; [|discriminate].
  intros [= <-]. exists d, tk, tt. simpl.
  repeat split; try reflexivity; try assumption.
  intros ->. discriminate.
Qed.

(** A record comes from a payload that passed the validation. *)
Lemma parse_message_with_some (template : string) (client : anthropic_client)
  (text ts : string) (r : ParsedSignal) :
  parse_message_with template client text ts = Ok (Some r) ->
  exists data,
    parse_message_payload template client text ts = Ok (Some data) /\
    parse_message_data data text ts = Ok (Some r).
Proof.
  unfold parse_message_with.
  destruct (parse_message_payload template client text ts) as [[data|]|e]; simpl.
  - destruct (parse_message_data data text ts) as [o|e] eqn:E.
    + intros [= ->]. now exists data.
    + destruct (is_APIError e); [discriminate|].
      destruct (is_Exception e); discriminate.
  - discriminate.
  - destruct (is_APIError e); [discriminate|].
    destruct (is_Exception e); discriminate.
Qed.

(** A payload that reaches the validation is either turned into a record or
    dropped: an exception of the validation never leaves [parse_message]. *)
Lemma parse_message_with_payload (template : string) (client : anthropic_client)
  (text ts : string) (data : json) :
  parse_message_payload template client text ts = Ok (Some data) ->
  parse_message_with template client text ts =
    match parse_message_data data text ts with
    | Ok r => Ok r
    | Raise _ => Ok None
    end.
Proof.
  unfold parse_message_with. intros ->. simpl.
  destruct (parse_message_data data text ts) as [o|e] eqn:E; [reflexivity|].
  rewrite (parse_message_data_raise _ _ _ _ E).
  now destruct (is_APIError e).
Qed.

(** What the payload step raises is an [Exception], unless the call to the
    service raised it. *)
Lemma parse_message_payload_raise (template : string) (client : anthropic_client)
  (text ts : string) (e : exn) :
  parse_message_payload template client text ts = Raise e ->
  is_Exception e = true \/ exists prompt, client prompt = ApiRaises e.
Proof.
  unfold parse_message_payload. intros H.
  apply bind_raise in H as [H|(prompt & _ & H)].
  { left. eapply format_from_raise. exact H. }
  apply bind_raise in H as [H|(content & _ & H)].
  { right. exists prompt. unfold messages_create in H.
    destruct (client prompt); [now injection H as ->|discriminate]. }
  apply bind_raise in H as [H|(t & _ & H)].
  { left. destruct content as [|[t|] content]; simpl in H;
      try discriminate H; now injection H as <-. }
  left. eapply decode_response_raise. exact H.
Qed.

(** [parse_message] raises only what [except Exception] lets through, and
    that can only come from the call to the service. *)
Lemma parse_message_with_raise (template : string) (client : anthropic_client)
  (text ts : string) (e : exn) :
  parse_message_with template client text ts = Raise e ->
  is_Exception e = false /\ exists prompt, client prompt = ApiRaises e.
Proof.
  unfold parse_message_with.
  destruct (parse_message_payload template client text ts) as [[data|]|e'] eqn:P; simpl.
  - destruct (parse_message_data data text ts) as [o|e'] eqn:E; [discriminate|].
    rewrite (parse_message_data_raise _ _ _ _ E).
    now destruct (is_APIError e').
  - discriminate.
  - destruct (is_APIError e') eqn:A; [discriminate|].
    destruct (is_Exception e') eqn:X; [discriminate|].
    intros [= <-]. split; [assumption|].
    apply parse_message_payload_raise in P as [P|P]; [congruence|assumption].
Qed.

Lemma rejected_no_record (data : json) (text ts : string) (r : ParsedSignal) :
  rejected data -> parse_message_data data text ts <> Ok (Some r).
Proof.
  intros Hrej H.
  apply parse_message_data_some in H
    as (d & tk & tt & -> & Hsig & Htk & Hne & Htt & Hbs & _).
  unfold dict_get in Hsig, Htk, Htt.
  destruct Hrej as [(d' & [= <-] & L)|[(d' & [= <-] & L)|(d' & [= <-] & L)]].
  - rewrite L in Hsig. discriminate.
  - destruct L as [L|[L|L]]; rewrite L in Htk; try discriminate.
    injection Htk as <-. now apply Hne.
  - destruct L as [L|[(v & L & Hv)|(s & L & Hb & Hs)]]; rewrite L in Htt.
    + injection Htt as <-. discriminate.
    + now apply (Hv tt).
    + injection Htt as <-. apply is_buy_or_sell_spec in Hbs. tauto.
Qed.

Lemma rejected_payload_dropped (template : string) (client : anthropic_client)
  (text ts : string) (data : json) :
  parse_message_payload template client text ts = Ok (Some data) ->
  rejected data ->
  parse_message_with template client text ts = Ok None.
Proof.
  intros P Hrej.
  rewrite (parse_message_with_payload _ _ _ _ _ P).
  destruct (parse_message_data data text ts) as [[r|]|e] eqn:E; try reflexivity.
  exfalso. exact (rejected_no_record _ _ _ _ Hrej E).
Qed.

(** The prompt of the repository cannot be formatted: the braces of its JSON
    example open a replacement field named ["is_signal"], with the quotes,
    for which there is no argument. *)
Lemma format_parse_prompt (text ts : string) :
  py_format PARSE_PROMPT [("message", text); ("timestamp", ts)] = Raise KeyError.
Proof. vm_compute. reflexivity. Qed.

Lemma parse_message_with_parse_prompt (client : anthropic_client) (text ts : string) :
  parse_message_with PARSE_PROMPT client text ts = Ok None.
Proof.
  unfold parse_message_with, parse_message_payload.
  now rewrite format_parse_prompt.
Qed.

(** C3, validation completeness.  Whatever the prompt template and the
    service: a payload that declares [is_signal] false, or has no ticker or
    an empty one, or whose transaction type in upper case is not exactly BUY
    or SELL, makes [parse_message] return no signal; and every record
    [parse_message] returns has a ticker that is not empty and is in upper
    case, and the transaction type BUY or SELL. *)
Theorem validation_completeness (template : string) (client : anthropic_client)
  (text ts : string) :
  (forall data,
      parse_message_payload template client text ts = Ok (Some data) ->
      rejected data ->
      parse_message_with template client text ts = Ok None)
  /\ (forall r,
         parse_message_with template client text ts = Ok (Some r) ->
         ticker r <> EmptyString
         /\ upper (ticker r) = ticker r
         /\ (transaction_type r = "BUY" \/ transaction_type r = "SELL")).
Proof.
  split.
  - intros data. apply rejected_payload_dropped.
  - intros r H.
    apply parse_message_with_some in H as (data & _ & H).
    apply parse_message_data_some in H
      as (d & tk & tt & _ & _ & _ & Hne & _ & Hbs & _ & ->). simpl.
    repeat split.
    + intros E. apply upper_empty in E. now apply Hne.
    + apply upper_idempotent.
    + now apply is_buy_or_sell_spec.
Qed.

(** C7, truncation.  The [raw_message] of an accepted signal is the message
    text cut after 500 characters: a prefix of the text, of exactly 500
    characters when the text is longer, and the text itself otherwise. *)
Theorem raw_message_truncated (template : string) (client : anthropic_client)
  (text ts : string) (r : ParsedSignal) :
  parse_message_with template client text ts = Ok (Some r) ->
  raw_message r = slice_to 500 text
  /\ (exists rest, text = (raw_message r ++ rest)%string)
  /\ ((500 < String.length text)%nat -> String.length (raw_message r) = 500%nat)
  /\ ((String.length text <= 500)%nat -> raw_message r = text).
Proof.
  intros H.
  apply parse_message_with_some in H as (data & _ & H).
  apply parse_message_data_some in H as (d & tk & tt & _ & _ & _ & _ & _ & _ & _ & ->).
  simpl. repeat split.
  - apply slice_to_append.
  - intros L. rewrite slice_to_length. lia.
  - apply slice_to_short.
Qed.

(** C8, date fallback.  An accepted signal comes from a payload object; when
    that payload has no [signal_date], or an empty one, the signal carries
    the first 10 characters of the timestamp, and when the payload gives a
    date that is not empty the signal carries that date unchanged. *)
Theorem signal_date_fallback (template : string) (client : anthropic_client)
  (text ts : string) (r : ParsedSignal) :
  parse_message_with template client text ts = Ok (Some r) ->
  exists d,
    parse_message_payload template client text ts = Ok (Some (JDict d))
    /\ (dict_lookup "signal_date" d = None ->
        signal_date r = JStr (slice_to 10 ts))
    /\ (dict_lookup "signal_date" d = Some (JStr EmptyString) ->
        signal_date r = JStr (slice_to 10 ts))
    /\ (forall s, s <> EmptyString ->
                  dict_lookup "signal_date" d = Some (JStr s) ->
                  signal_date r = JStr s).
Proof.
  intros H.
  apply parse_message_with_some in H as (data & P & H).
  apply parse_message_data_some in H as (d & tk & tt & -> & _ & _ & _ & _ & _ & _ & ->).
  exists d. simpl. unfold dict_get. repeat split; try assumption.
  - now intros ->.
  - now intros ->.
  - intros s Hs ->. simpl. destruct s; [contradiction|reflexivity].
Qed.

(** X23.  Whatever the prompt template, the confidence of an accepted signal
    is [float(c)] for the payload's confidence [c]: 0.5 when the payload has
    no such key, and the payload's own number, whatever its size, when it is
    a float: nothing checks the range.  A payload whose confidence [float]
    cannot convert is no signal at all. *)
Theorem confidence_is_payload_value (template : string) (client : anthropic_client)
  (text ts : string) :
  (forall r,
      parse_message_with template client text ts = Ok (Some r) ->
      exists d,
        parse_message_payload template client text ts = Ok (Some (JDict d))
        /\ py_float (dict_get "confidence" (JFloat 0.5%float) d) = Ok (confidence r)
        /\ (dict_lookup "confidence" d = None -> confidence r = 0.5%float)
        /\ (forall f, dict_lookup "confidence" d = Some (JFloat f) ->
                      confidence r = f))
  /\ (forall d e,
         parse_message_payload template client text ts = Ok (Some (JDict d)) ->
         py_float (dict_get "confidence" (JFloat 0.5%float) d) = Raise e ->
         parse_message_with template client text ts = Ok None).
Proof.
  split.
  - intros r H.
    apply parse_message_with_some in H as (data & P & H).
    apply parse_message_data_some in H as (d & tk & tt & -> & _ & _ & _ & _ & _ & C & _).
    exists d. repeat split; try assumption.
    + intros L. unfold dict_get in C. rewrite L in C. simpl in C. congruence.
    + intros f L. unfold dict_get in C. rewrite L in C. simpl in C. congruence.
  - intros d e P C.
    rewrite (parse_message_with_payload _ _ _ _ _ P).
    destruct (parse_message_data (JDict d) text ts) as [[r|]|e'] eqn:E; try reflexivity.
    apply parse_message_data_some in E as (d' & tk & tt & [= <-] & _ & _ & _ & _ & _ & C' & _).
    congruence.
Qed.


(** C6, per-message failure isolation.  Whatever the prompt template:
    an exception of the call to the service that derives from [Exception],
    and so each of the three API errors (authentication, rate limit,
    connection), an answer that cannot be decoded, and a payload the
    validation rejects, all make [parse_message] return no signal; and the
    extraction loop over a batch returns its list of signals, as long as no
    call is interrupted by something that is not an [Exception]. *)
Theorem extraction_faults_are_isolated (template : string) :
  (forall client text ts prompt e,
      py_format template [("message", text); ("timestamp", ts)] = Ok prompt ->
      client prompt = ApiRaises e ->
      is_Exception e = true ->
      parse_message_with template client text ts = Ok None)
  /\ (forall client text ts kind,
         (forall prompt, client prompt = ApiRaises (APIError kind)) ->
         parse_message_with template client text ts = Ok None)
  /\ (forall client text ts prompt content response_text,
         py_format template [("message", text); ("timestamp", ts)] = Ok prompt ->
         client prompt = ApiMessage content ->
         first_text content = Ok response_text ->
         json_loads (strip response_text) = None ->
         (forall group, fenced_json (strip response_text) = Some group ->
                        json_loads group = None) ->
         parse_message_with template client text ts = Ok None)
  /\ (forall client text ts data,
         parse_message_payload template client text ts = Ok (Some data) ->
         rejected data ->
         parse_message_with template client text ts = Ok None)
  /\ (forall (clients : nat -> anthropic_client) messages i signals,
         (forall j prompt e, clients j prompt = ApiRaises e -> is_Exception e = true) ->
         exists found,
           parse_messages template clients i messages signals = Ok found).
Proof.
  assert (forall client text ts,
             (forall prompt e, client prompt = ApiRaises e -> is_Exception e = true) ->
             exists o, parse_message_with template client text ts = Ok o) as Total.
  { intros client text ts Hc.
    destruct (parse_message_with template client text ts) as [o|e] eqn:E.
    - now exists o.
    - apply parse_message_with_raise in E as (X & prompt & C).
      apply Hc in C. congruence. }
  repeat split.
  - intros client text ts prompt e F C X.
    unfold parse_message_with, parse_message_payload, messages_create.
    rewrite F. simpl. rewrite C. simpl. rewrite X. now destruct (is_APIError e).
  - intros client text ts kind C.
    unfold parse_message_with, parse_message_payload, messages_create.
    destruct (py_format template _) as [prompt|e] eqn:F; simpl.
    + now rewrite C.
    + rewrite (format_from_raise _ _ _ _ _ F). now destruct (is_APIError e).
  - intros client text ts prompt content t F C T J G.
    unfold parse_message_with, parse_message_payload, messages_create, decode_response.
    rewrite F. simpl. rewrite C. simpl. rewrite T. simpl. rewrite J.
    destruct (fenced_json (strip t)) as [g|]; [|reflexivity].
    now rewrite (G g eq_refl).
  - intros client text ts data. apply rejected_payload_dropped.
  - intros clients messages. induction messages as [|[[mid text] ts] rest IH];
      intros i signals Hc; simpl.
    + now exists signals.
    + destruct (Total (clients i) text ts (Hc i)) as [o ->]. simpl.
      apply IH. assumption.
Qed.

(** X1.  With the prompt of the repository [parse_message] returns no signal,
    whatever the message and whatever the service would answer: formatting
    the prompt raises [KeyError] before the service is called. *)
Theorem parse_message_never_accepts (client : anthropic_client) (text ts : string) :
  parse_message client text ts = Ok None.
Proof.
  unfold parse_message. apply parse_message_with_parse_prompt.
Qed.

End ExtractorFacts.
(* ===================================================================== *)
(** ** The store *)
(* ===================================================================== *)

Lemma io_bind_eq {A B : Type} (c : io A) (k : A -> io B) (w : world) :
  io_bind c k w
  = match c w with
    | (Ok a, w') => k a w'
    | (Raise e, w') => (Raise e, w')
    end.
Proof. reflexivity. Qed.

Lemma dict_lookup_set_same (k : string) (v : json) (d : list (string * json)) :
  dict_lookup k (dict_set k v d) = Some v.
Proof.
  induction d as [|[k' v'] d IH]; simpl.
  - now rewrite String.eqb_refl.
  - destruct (String.eqb k k') eqn:E; simpl; now rewrite E.
Qed.

Lemma dict_lookup_set_other (k k' : string) (v : json) (d : list (string * json)) :
  k <> k' -> dict_lookup k (dict_set k' v d) = dict_lookup k d.
Proof.
  intros N. induction d as [|[k0 v0] d IH]; simpl.
  - apply String.eqb_neq in N. now rewrite N.
  - destruct (String.eqb k' k0) eqn:E; simpl.
    + apply String.eqb_eq in E. subst k0.
      apply String.eqb_neq in N. now rewrite N.
    + now rewrite IH.
Qed.

Lemma dict_item_ensure (k : string) (d : list (string * json)) :
  dict_item k (ensure_dict k d) = Ok (dict_get k (JDict []) d).
Proof.
  unfold dict_item, ensure_dict, dict_get.
  destruct (dict_lookup k d) eqn:E.
  - now rewrite E.
  - now rewrite dict_lookup_set_same.
Qed.

Lemma load_state_world (w : world) : snd (load_state w) = w.
Proof.
  unfold load_state. destruct (state_file w) as [|e|c]; try reflexivity.
  now destruct (is_JSONDecodeError e || is_IOError e)%bool.
Qed.

Lemma load_state_eq (w : world) : load_state w = (fst (load_state w), w).
Proof. rewrite <- (load_state_world w) at 3. now destruct (load_state w). Qed.

Lemma load_state_file (w w' : world) :
  state_file w = state_file w' -> fst (load_state w) = fst (load_state w').
Proof.
  unfold load_state. intros <-. destruct (state_file w) as [|e|c]; try reflexivity.
  now destruct (is_JSONDecodeError e || is_IOError e)%bool.
Qed.

Lemma get_last_message_id_eq (channel_id : Z) (w : world) :
  get_last_message_id channel_id w
  = (bind (fst (load_state w)) (read_watermark channel_id), w).
Proof.
  unfold get_last_message_id, io_bind, lift. rewrite load_state_eq.
  destruct (fst (load_state w)); reflexivity.
Qed.

Lemma watermark_eq (channel_id : Z) (w : world) :
  watermark channel_id w = bind (fst (load_state w)) (read_watermark channel_id).
Proof. unfold watermark. now rewrite get_last_message_id_eq. Qed.

Lemma watermark_file (channel_id : Z) (w w' : world) :
  state_file w = state_file w' -> watermark channel_id w = watermark channel_id w'.
Proof. intros E. rewrite !watermark_eq. now rewrite (load_state_file _ _ E). Qed.

Lemma processed_count_eq (w : world) :
  processed_count w
  = bind (fst (load_state w)) (fun state => py_get state "total_processed" (JInt 0)).
Proof.
  unfold processed_count, get_processed_count. rewrite io_bind_eq, load_state_eq.
  destruct (fst (load_state w)); reflexivity.
Qed.

Lemma processed_count_file (w w' : world) :
  state_file w = state_file w' -> processed_count w = processed_count w'.
Proof. intros E. rewrite !processed_count_eq. now rewrite (load_state_file _ _ E). Qed.


Lemma save_state_eq (state : json) (w : world) :
  save_state state w
  = (Ok tt, if state_writable w then written state w else unwritten w).
Proof.
  unfold save_state, written, unwritten, damaged.
  destruct (state_writable w), (state_truncates w); reflexivity.
Qed.

Lemma unwritten_keeps (w : world) :
  keeps_on_failure w -> state_writable w = false -> unwritten w = w.
Proof. intros [K|K] W; [congruence|]. unfold unwritten. now rewrite K. Qed.

Lemma unwritten_frame (w : world) :
  state_writable (unwritten w) = state_writable w
  /\ state_truncates (unwritten w) = state_truncates w
  /\ requests (unwritten w) = requests w.
Proof. unfold unwritten. destruct (state_truncates w) eqn:T; cbn; auto. Qed.

(** A file cut short reads as the empty state. *)
Lemma load_state_damaged (w : world) : fst (load_state (damaged w)) = Ok (JDict []).
Proof. reflexivity. Qed.

Lemma watermark_written (channel_id : Z) (state : json) (w : world) :
  watermark channel_id (written state w) = read_watermark channel_id state.
Proof. rewrite watermark_eq. reflexivity. Qed.

Lemma read_watermark_total_processed (channel_id : Z) (v : json) (d : list (string * json)) :
  read_watermark channel_id (JDict (dict_set "total_processed" v d))
  = read_watermark channel_id (JDict d).
Proof.
  unfold read_watermark. simpl. unfold dict_get.
  rewrite dict_lookup_set_other; [reflexivity|discriminate].
Qed.

(** [increment_processed_count] leaves every watermark as it is. *)
Lemma increment_processed_count_watermark (count channel_id : Z) (w : world) :
  keeps_on_failure w ->
  watermark channel_id (snd (increment_processed_count count w))
  = watermark channel_id w.
Proof.
  intros K.
  unfold increment_processed_count, io_bind, lift.
  rewrite load_state_eq.
  destruct (fst (load_state w)) as [state|e] eqn:L; [|reflexivity].
  destruct (t <- py_get state "total_processed" (JInt 0) ;; py_add_int t count)
    as [total|e] eqn:T; [|reflexivity].
  destruct state as [| | | | | |d]; simpl; try reflexivity.
  rewrite save_state_eq. simpl.
  destruct (state_writable w) eqn:W; [|now rewrite (unwritten_keeps w K W)].
  rewrite watermark_written, read_watermark_total_processed.
  rewrite watermark_eq, L. reflexivity.
Qed.

Lemma increment_processed_count_frame (count : Z) (w : world) :
  state_writable (snd (increment_processed_count count w)) = state_writable w
  /\ requests (snd (increment_processed_count count w)) = requests w.
Proof.
  unfold increment_processed_count, io_bind, lift.
  rewrite load_state_eq.
  destruct (fst (load_state w)) as [state|e]; [|split; reflexivity].
  destruct (t <- py_get state "total_processed" (JInt 0) ;; py_add_int t count)
    as [total|e]; [|split; reflexivity].
  destruct (as_dict state); [|split; reflexivity].
  rewrite save_state_eq. simpl.
  destruct (state_writable w) eqn:W; simpl; auto.
  destruct (unwritten_frame w) as (A & _ & B). rewrite A, B. auto.
Qed.





Lemma set_last_message_id_requests (channel_id m : Z) (w : world) :
  requests (snd (set_last_message_id channel_id m w)) = requests w
  /\ state_writable (snd (set_last_message_id channel_id m w)) = state_writable w.
Proof.
  unfold set_last_message_id, io_bind, lift.
  rewrite load_state_eq.
  destruct (fst (load_state w)) as [state|e]; [|split; reflexivity].
  destruct (as_dict state) as [d|e]; [|split; reflexivity].
  destruct (c <- dict_item "channels" (ensure_dict "channels" d) ;; as_dict c)
    as [ch|e]; [|split; reflexivity].
  destruct (e <- dict_item (str_of_int channel_id)
                   (ensure_dict (str_of_int channel_id) ch) ;; as_dict e)
    as [en|e]; [|split; reflexivity].
  rewrite save_state_eq. simpl.
  destruct (state_writable w) eqn:W; simpl; auto.
  destruct (unwritten_frame w) as (A & _ & B). rewrite A, B. auto.
Qed.


(** X24.  [get_last_message_id] returns 0, and leaves the world alone, when
    there is no state file, when reading it raises [IOError] or
    [json.JSONDecodeError], and when the file holds a document of the state
    layout without a watermark for the channel. *)
Theorem degraded_storage_reads_zero (channel_id : Z) (w : world) :
  state_file w = NoFile
  \/ state_file w = FileError IOError
  \/ state_file w = FileError JSONDecodeError
  \/ (exists content, state_file w = FileJson content /\ no_entry channel_id content) ->
  get_last_message_id channel_id w = (Ok (JInt 0), w).
Proof.
  unfold get_last_message_id, io_bind, load_state, lift.
  intros [H|[H|[H|(content & H & d & -> & E)]]]; rewrite H; simpl; try reflexivity.
  unfold dict_get.
  destruct E as [E|(channels & E & [K|(entry & K & L)])]; rewrite E; simpl.
  - reflexivity.
  - unfold dict_get. now rewrite K.
  - unfold dict_get. rewrite K. simpl. unfold dict_get. now rewrite L.
Qed.

(** C9, the stores that make the read raise.  A state file that is not
    valid UTF-8 makes [json.load] raise [UnicodeDecodeError], which is
    neither of the two classes [load_state] catches; a file whose document
    is not an object, or whose [channels], or whose entry for the channel,
    is not one, makes a [get] raise [AttributeError].  In each case
    [get_last_message_id] raises, and changes nothing. *)
Theorem corrupt_store_raises (channel_id : Z) (w : world) :
  (state_file w = FileError UnicodeDecodeError ->
   get_last_message_id channel_id w = (Raise UnicodeDecodeError, w))
  /\ (forall content,
         state_file w = FileJson content ->
         (forall d, content <> JDict d) ->
         get_last_message_id channel_id w = (Raise AttributeError, w))
  /\ (forall d channels,
         state_file w = FileJson (JDict d) ->
         dict_lookup "channels" d = Some channels ->
         (forall c, channels <> JDict c) ->
         get_last_message_id channel_id w = (Raise AttributeError, w))
  /\ (forall d c entry,
         state_file w = FileJson (JDict d) ->
         dict_lookup "channels" d = Some (JDict c) ->
         dict_lookup (str_of_int channel_id) c = Some entry ->
         (forall e, entry <> JDict e) ->
         get_last_message_id channel_id w = (Raise AttributeError, w)).
Proof.
  unfold get_last_message_id, io_bind, load_state, lift.
  split; [|split; [|split]].
  - intros ->. reflexivity.
  - intros content -> N.
    destruct content as [| | | | | |d0]; try reflexivity. now destruct (N d0).
  - intros d channels -> L N. simpl. unfold dict_get. rewrite L.
    destruct channels as [| | | | | |d0]; try reflexivity. now destruct (N d0).
  - intros d c entry -> L K N. simpl. unfold dict_get. rewrite L. simpl.
    unfold dict_get. rewrite K.
    destruct entry as [| | | | | |d0]; try reflexivity. now destruct (N d0).
Qed.

(* ===================================================================== *)
(** ** The delivery client *)
(* ===================================================================== *)

Lemma send_signal_requests (ep : endpoint) (self : WebhookClient) (s : ParsedSignal) (w : world) :
  snd (send_signal ep self s w)
  = {| state_file := state_file w; state_writable := state_writable w;
       state_truncates := state_truncates w;
       requests := requests w ++ [make_payload self s] |}.
Proof.
  unfold send_signal.
  destruct (ep (requests w) (make_payload self s)) as [e|status body]; simpl.
  - destruct e; reflexivity.
  - destruct (response_json body) as [j|e]; simpl; [reflexivity|].
    destruct e; reflexivity.
Qed.

Lemma send_signals_loop_counts (ep : endpoint) (self : WebhookClient) (signals : list ParsedSignal) :
  forall (acc r : Batch.batch_results) (w w' : world),
    send_signals_loop ep self signals acc w = (Ok r, w') ->
    Batch.total r = Batch.total acc
    /\ Batch.success r + Batch.duplicates r + Batch.failed r
       = Batch.success acc + Batch.duplicates acc + Batch.failed acc
         + Z.of_nat (length signals)
    /\ Z.of_nat (length (Batch.errors r)) - Batch.failed r
       = Z.of_nat (length (Batch.errors acc)) - Batch.failed acc.
Proof.
  induction signals as [|s rest IH]; intros acc r w w' H.
  - simpl in H. injection H as <- <-. simpl. repeat split; lia.
  - cbn [send_signals_loop] in H. unfold io_bind at 1 in H.
    destruct (send_signal ep self s w) as [[sr|e] w1]; [|discriminate].
    destruct (Send.success sr).
    { apply IH in H as (T & C & E). cbn [Batch.total Batch.success Batch.failed Batch.duplicates Batch.errors] in *.
      cbn [length]. repeat split; lia. }
    destruct (Send.status_code sr =? 409).
    { apply IH in H as (T & C & E). cbn [Batch.total Batch.success Batch.failed Batch.duplicates Batch.errors] in *.
      cbn [length]. repeat split; lia. }
    unfold io_bind at 1, lift in H.
    destruct (error_message sr) as [msg|e]; [|discriminate].
    apply IH in H as (T & C & E). cbn [Batch.total Batch.success Batch.failed Batch.duplicates Batch.errors] in *.
    rewrite length_app in E. cbn [length] in *. repeat split; lia.
Qed.

Lemma send_signal_well_behaved (ep : endpoint) (self : WebhookClient) (s : ParsedSignal) (w : world) :
  well_behaved (ep (requests w) (make_payload self s)) ->
  exists sr, fst (send_signal ep self s w) = Ok sr
    /\ (Send.success sr = false -> Send.status_code sr <> 409 ->
        exists msg, error_message sr = Ok msg).
Proof.
  unfold send_signal.
  destruct (ep (requests w) (make_payload self s)) as [e|status body]; simpl.
  - destruct e; try contradiction. intros _. eexists. split; [reflexivity|].
    intros _ _. unfold error_message. simpl. destruct (is_empty msg); simpl; eauto.
  - destruct body as [|j|msg]; simpl.
    + intros _. eexists. split; [reflexivity|]. intros _ _.
      unfold error_message. simpl. eauto.
    + destruct j; try contradiction. intros _. eexists. split; [reflexivity|].
      intros _ _. unfold error_message. simpl. eauto.
    + intros _. eexists. split; [reflexivity|]. intros _ _.
      unfold error_message. simpl. destruct (is_empty msg); simpl; eauto.
Qed.

Lemma send_signals_loop_returns (ep : endpoint) (self : WebhookClient) (signals : list ParsedSignal) :
  (forall before payload, well_behaved (ep before payload)) ->
  forall (acc : Batch.batch_results) (w : world),
  exists r w', send_signals_loop ep self signals acc w = (Ok r, w').
Proof.
  intros WB. induction signals as [|s rest IH]; intros acc w.
  - simpl. unfold io_ret. eauto.
  - cbn [send_signals_loop]. unfold io_bind at 1.
    destruct (send_signal_well_behaved ep self s w (WB _ _)) as (sr & S & M).
    destruct (send_signal ep self s w) as [[sr'|e] w1]; simpl in S; [|discriminate].
    injection S as ->.
    destruct (Send.success sr) eqn:Hs; [apply IH|].
    destruct (Send.status_code sr =? 409) eqn:Hc; [apply IH|].
    destruct (M eq_refl) as (msg & ->).
    { intros E. rewrite E in Hc. discriminate. }
    unfold io_bind at 1, lift. apply IH.
Qed.

(** C10, batch count conservation.  The record [send_signals_batch] returns
    has [total] equal to the number of signals, its three counts add up to
    [total], and [errors] has one entry per failed signal; and the batch does
    return a record for every endpoint that keeps to its interface. *)
Theorem batch_counts_are_conserved (ep : endpoint) (self : WebhookClient)
  (signals : list ParsedSignal) (w : world) :
  (forall r w',
      send_signals_batch ep self signals w = (Ok r, w') ->
      Batch.total r = Z.of_nat (length signals)
      /\ Batch.success r + Batch.duplicates r + Batch.failed r = Batch.total r
      /\ Z.of_nat (length (Batch.errors r)) = Batch.failed r)
  /\ ((forall before payload, well_behaved (ep before payload)) ->
      exists r w', send_signals_batch ep self signals w = (Ok r, w')).
Proof.
  unfold send_signals_batch. split.
  - intros r w' H. apply send_signals_loop_counts in H as (T & C & E).
    simpl in *. repeat split; lia.
  - intros WB. now apply send_signals_loop_returns.
Qed.

Lemma send_signals_batch_one (ep : endpoint) (self : WebhookClient)
  (s : ParsedSignal) (w : world) :
  fst (send_signals_batch ep self [s] w)
  = (sr <- fst (send_signal ep self s w) ;;
     o <- outcome_of sr ;;
     Ok (tally s o)).
Proof.
  unfold send_signals_batch. cbn [send_signals_loop]. rewrite io_bind_eq.
  destruct (send_signal ep self s w) as [[sr|e] w1]; [|reflexivity].
  cbn [fst bind]. unfold outcome_of.
  destruct (Send.success sr); [reflexivity|].
  destruct (Send.status_code sr =? 409); [reflexivity|].
  rewrite io_bind_eq. unfold lift.
  destruct (error_message sr); reflexivity.
Qed.

(** X3.  How one delivery is counted.  A response whose body is a JSON
    object or empty is counted by its status code: 200 a success, 409 a
    duplicate, anything else a failure whose reason is the [error] entry of
    the body, or Unknown error.  A transport error is a failure with the
    text of the exception; so is a response whose body is not JSON, whatever
    its status code. *)
Theorem delivery_classification (ep : endpoint) (self : WebhookClient)
  (s : ParsedSignal) (w : world) :
  let answer := ep (requests w) (make_payload self s) in
  let counted := fst (send_signals_batch ep self [s] w) in
  (forall status d,
      answer = HttpResponse status (BodyJson (JDict d)) ->
      counted = Ok (tally s (if status =? 200 then Delivered
                             else if status =? 409 then Duplicate
                             else Failed (dict_get "error" (JStr "Unknown error") d))))
  /\ (forall status,
         answer = HttpResponse status BodyEmpty ->
         counted = Ok (tally s (if status =? 200 then Delivered
                                else if status =? 409 then Duplicate
                                else Failed (JStr "Unknown error"))))
  /\ (forall msg,
         answer = PostRaises (RequestException msg) ->
         counted = Ok (tally s (Failed (exception_reason msg))))
  /\ (forall status msg,
         answer = HttpResponse status (BodyNotJson msg) ->
         counted = Ok (tally s (Failed (exception_reason msg)))).
Proof.
  cbv zeta. rewrite send_signals_batch_one. unfold send_signal, outcome_of, error_message.
  repeat split.
  - intros status d ->. simpl.
    destruct (status =? 200); [reflexivity|].
    destruct (status =? 409); reflexivity.
  - intros status ->. simpl.
    destruct (status =? 200); [reflexivity|].
    destruct (status =? 409); reflexivity.
  - intros msg ->. simpl. unfold exception_reason. now destruct (is_empty msg).
  - intros status msg ->. simpl. unfold exception_reason. now destruct (is_empty msg).
Qed.

(** C5, at the failing input.  A 409 response, and a 200 response, whose
    body is plain text are both counted as failures, with the text of the
    JSON decoder as the reason, and not as a duplicate and a success. *)
Theorem text_body_is_counted_as_failure :
  fst (send_signals_batch (always (HttpResponse 409 (BodyNotJson decode_error)))
         sample_webhook [sample_signal] fresh_world)
  = Ok (tally sample_signal (Failed (JStr decode_error)))
  /\ fst (send_signals_batch (always (HttpResponse 200 (BodyNotJson decode_error)))
            sample_webhook [sample_signal] fresh_world)
     = Ok (tally sample_signal (Failed (JStr decode_error))).
Proof. split; vm_compute; reflexivity. Qed.

(* ===================================================================== *)
(** ** The steps of a run *)
(* ===================================================================== *)

Lemma send_signals_loop_frame (ep : endpoint) (self : WebhookClient)
  (signals : list ParsedSignal) :
  forall (acc : Batch.batch_results) (w : world),
    state_file (snd (send_signals_loop ep self signals acc w)) = state_file w
    /\ state_writable (snd (send_signals_loop ep self signals acc w)) = state_writable w.
Proof.
  induction signals as [|s rest IH]; intros acc w; [split; reflexivity|].
  cbn [send_signals_loop]. rewrite io_bind_eq.
  pose proof (send_signal_requests ep self s w) as E.
  destruct (send_signal ep self s w) as [[sr|e] w1]; simpl in E;
    [|subst w1; split; reflexivity].
  assert (forall acc',
             state_file (snd (send_signals_loop ep self rest acc' w1)) = state_file w
             /\ state_writable (snd (send_signals_loop ep self rest acc' w1))
                = state_writable w) as F.
  { intros acc'. destruct (IH acc' w1) as [-> ->]. now subst w1. }
  destruct (Send.success sr); [apply F|].
  destruct (Send.status_code sr =? 409); [apply F|].
  rewrite io_bind_eq. unfold lift.
  destruct (error_message sr); [apply F|subst w1; split; reflexivity].
Qed.

Lemma send_signals_loop_truncates (ep : endpoint) (self : WebhookClient)
  (signals : list ParsedSignal) :
  forall (acc : Batch.batch_results) (w : world),
    state_truncates (snd (send_signals_loop ep self signals acc w))
    = state_truncates w.
Proof.
  induction signals as [|s rest IH]; intros acc w; [reflexivity|].
  cbn [send_signals_loop]. rewrite io_bind_eq.
  pose proof (send_signal_requests ep self s w) as E.
  destruct (send_signal ep self s w) as [[sr|e] w1]; simpl in E;
    [|subst w1; reflexivity].
  assert (forall acc',
             state_truncates (snd (send_signals_loop ep self rest acc' w1))
             = state_truncates w) as F.
  { intros acc'. rewrite IH. now subst w1. }
  destruct (Send.success sr); [apply F|].
  destruct (Send.status_code sr =? 409); [apply F|].
  rewrite io_bind_eq. unfold lift.
  destruct (error_message sr); [apply F|subst w1; reflexivity].
Qed.


Lemma deliver_frame (ep : endpoint) (wc : option WebhookClient) (dry_run : bool)
  (signals : list ParsedSignal) (n : Z) (w : world) :
  state_writable (snd (deliver ep wc dry_run signals n w)) = state_writable w
  /\ (keeps_on_failure w ->
      forall channel_id,
        watermark channel_id (snd (deliver ep wc dry_run signals n w))
        = watermark channel_id w).
Proof.
  unfold deliver.
  destruct signals as [|s rest]; [split; reflexivity|].
  destruct dry_run; [split; reflexivity|].
  destruct wc as [client|]; [|split; reflexivity].
  rewrite io_bind_eq. unfold send_signals_batch.
  destruct (send_signals_loop_frame ep client (s :: rest)
              {| Batch.total := Z.of_nat (length (s :: rest)); Batch.success := 0;
                 Batch.failed := 0; Batch.duplicates := 0; Batch.errors := [] |} w)
    as [F W].
  pose proof (send_signals_loop_truncates ep client (s :: rest)
                {| Batch.total := Z.of_nat (length (s :: rest)); Batch.success := 0;
                   Batch.failed := 0; Batch.duplicates := 0; Batch.errors := [] |} w)
    as T.
  destruct (send_signals_loop ep client (s :: rest) _ w) as [[r|e] w1];
    simpl in F, W, T.
  - rewrite io_bind_eq.
    pose proof (fun c K => increment_processed_count_watermark (Batch.success r) c w1 K)
      as I.
    destruct (increment_processed_count_frame (Batch.success r) w1) as [IW _].
    destruct (increment_processed_count (Batch.success r) w1) as [[[]|e] w2];
      simpl in *; (split; [congruence|]); intros K c; rewrite I;
      try (now apply watermark_file);
      unfold keeps_on_failure in *; rewrite W, T; assumption.
  - simpl. split; [assumption|]. intros _ c. now apply watermark_file.
Qed.






Section RunFacts.
Context {lib : Library}.

Variables (template : string) (tg : TelegramClient)
  (ac : nat -> anthropic_client) (ep : endpoint) (wc : option WebhookClient)
  (channel_id : Z) (limit : option Z).

(** The shape of a run that starts from [min_id]: it stops early and leaves
    the world alone, or goes through the delivery and the commit. *)
Lemma run_pipeline_with_cases (full_scan dry_run : bool) (w : world) (min_id : Z) :
  (if full_scan then min_id = 0 else watermark channel_id w = Ok (JInt min_id)) ->
  let run := run_pipeline_with template tg ac ep wc channel_id full_scan dry_run limit w in
  let collected := collect limit (iter_messages tg min_id) 0 [] min_id in
  (snd run = w /\ forall s, fst run = Ok (RunSummary s) -> fst collected = [])
  \/ exists signals,
       parse_messages template ac 0 (fst collected) [] = Ok signals /\
       let d := deliver ep wc dry_run signals (Z.of_nat (length (fst collected))) w in
       (snd run = snd d /\ exists e, fst run = Raise e)
       \/ (exists s, fst d = Ok s
           /\ run = (match fst (commit_watermark channel_id full_scan min_id
                                  (snd collected) (snd d)) with
                     | Ok _ => Ok (RunSummary s)
                     | Raise e => Raise e
                     end,
                     snd (commit_watermark channel_id full_scan min_id
                            (snd collected) (snd d)))).
Proof.
  intros Hmin. cbv zeta.
  unfold run_pipeline_with. rewrite io_bind_eq.
  assert ((if full_scan then io_ret 0
           else v <~ get_last_message_id channel_id;; lift (as_int v)) w
          = (Ok min_id, w)) as ->.
  { destruct full_scan.
    - now subst.
    - unfold watermark in Hmin. unfold io_bind, lift.
      destruct (get_last_message_id channel_id w) as [r w0] eqn:G.
      pose proof (get_last_message_id_eq channel_id w) as G'.
      rewrite G in G'. injection G' as -> ->. simpl in Hmin. now rewrite Hmin. }
  destruct (get_entity tg channel_id) as [e|].
  { left. destruct e; simpl; split; try reflexivity; discriminate. }
  destruct (fst (collect limit (iter_messages tg min_id) 0 [] min_id))
    as [|m0 ms] eqn:C.
  { left. simpl. split; [reflexivity|]. intros; reflexivity. }
  rewrite io_bind_eq. unfold lift.
  destruct (parse_messages template ac 0 (m0 :: ms) []) as [signals|e].
  2:{ left. simpl. split; [reflexivity|discriminate]. }
  right. exists signals. split; [reflexivity|]. rewrite io_bind_eq.
  destruct (deliver ep wc dry_run signals (Z.of_nat (length (m0 :: ms))) w)
    as [[s|e] w2]; simpl.
  - right. exists s. split; [reflexivity|].
    unfold io_bind, io_ret.
    destruct (commit_watermark channel_id full_scan min_id _ w2) as [[[]|e] w3];
      reflexivity.
  - left. split; [reflexivity|]. now exists e.
Qed.

(** A run reads the watermark first, unless it is a full scan; when that
    fails nothing else happens. *)
Lemma run_pipeline_with_start (full_scan dry_run : bool) (w : world) :
  (exists e, run_pipeline_with template tg ac ep wc channel_id full_scan dry_run limit w
             = (Raise e, w))
  \/ exists min_id,
       if full_scan then min_id = 0 else watermark channel_id w = Ok (JInt min_id).
Proof.
  destruct full_scan; [right; now exists 0|].
  destruct (watermark channel_id w) as [v|e] eqn:H.
  - destruct v; try (right; eexists; reflexivity); left; exists TypeError;
      unfold run_pipeline_with; rewrite io_bind_eq, io_bind_eq;
      unfold watermark in H; rewrite get_last_message_id_eq in H |- *;
      simpl in H; rewrite H; reflexivity.
  - left. exists e. unfold run_pipeline_with. rewrite io_bind_eq, io_bind_eq.
    unfold watermark in H. rewrite get_last_message_id_eq in H |- *.
    simpl in H. rewrite H. reflexivity.
Qed.

End RunFacts.




(** A file cut short reads as the watermark 0, for every channel. *)
Lemma watermark_damaged (channel_id : Z) (w : world) :
  watermark channel_id (damaged w) = Ok (JInt 0).
Proof. reflexivity. Qed.



Section RunClaims.
Context {lib : Library}.

Variables (template : string) (channel_id : Z).











End RunClaims.

Section DryRun.
Context {lib : Library}.


Lemma parse_messages_parse_prompt (ac : nat -> anthropic_client)
  (messages : list (Z * string * string)) :
  forall i signals, parse_messages PARSE_PROMPT ac i messages signals = Ok signals.
Proof.
  induction messages as [|[[mid text] ts] rest IH]; intros i signals;
    cbn [parse_messages].
  - reflexivity.
  - rewrite parse_message_with_parse_prompt. cbn [bind]. apply IH.
Qed.

(** X2.  With the prompt of the repository a run never sends a request to
    the webhook, and a summary it returns counts no signal found and none
    sent. *)
Theorem run_pipeline_never_delivers (tg : TelegramClient)
  (ac : nat -> anthropic_client) (ep : endpoint) (wc : option WebhookClient)
  (channel_id : Z) (full_scan dry_run : bool) (limit : option Z) (w : world) :
  let run := run_pipeline tg ac ep wc channel_id full_scan dry_run limit w in
  requests (snd run) = requests w
  /\ forall s, fst run = Ok (RunSummary s) ->
               Summary.signals_found s = 0 /\ Summary.signals_sent s = 0.
Proof.
  cbv zeta. unfold run_pipeline.
  destruct (run_pipeline_with_start PARSE_PROMPT tg ac ep wc channel_id limit full_scan dry_run w)
    as [(e & ->)|(min_id & Hmin)]; [split; [reflexivity|discriminate]|].
  destruct (run_pipeline_with_cases PARSE_PROMPT tg ac ep wc channel_id limit
              full_scan dry_run w min_id Hmin)
    as [[E Z0]|(signals & P & D)].
  - rewrite E. split; [reflexivity|]. intros s R.
    pose proof (Z0 s R) as C. clear Z0.
    unfold run_pipeline_with in R. rewrite io_bind_eq in R.
    revert R.
    assert ((if full_scan then io_ret 0
             else v <~ get_last_message_id channel_id;; lift (as_int v)) w
            = (Ok min_id, w)) as ->.
    { destruct full_scan; [now subst|].
      unfold watermark in Hmin. rewrite io_bind_eq.
      rewrite get_last_message_id_eq in Hmin |- *. simpl in Hmin. now rewrite Hmin. }
    destruct (get_entity tg channel_id) as [[]|]; try discriminate.
    rewrite C. intros [= <-]. split; reflexivity.
  - rewrite parse_messages_parse_prompt in P. injection P as <-.
    unfold deliver in D. simpl in D. unfold io_ret in D. simpl in D.
    destruct D as [[E (e & R)]|(s & [= <-] & ->)].
    + rewrite E, R. split; [reflexivity|discriminate].
    + cbn [snd fst]. split.
      * unfold commit_watermark.
        destruct (negb full_scan && _)%bool; [|reflexivity].
        apply set_last_message_id_requests.
      * intros s. destruct (fst (commit_watermark _ _ _ _ _)); [|discriminate].
        intros [= <-]. split; reflexivity.
Qed.

End DryRun.



(* ===================================================================== *)
(** ** The statements at concrete inputs *)
(* ===================================================================== *)

(** Scenario A of the specification, with the escaped prompt. *)
Example scenario_a :
  parse_message_with (lib := sample_library) PARSE_PROMPT_escaped
    (answering sample_text) sample_message sample_timestamp
  = Ok (Some sample_signal).
Proof. vm_compute. reflexivity. Qed.

(** Scenario B of the specification, with the escaped prompt. *)
Example scenario_b :
  parse_message_with (lib := sample_library) PARSE_PROMPT_escaped
    (answering not_a_signal_text) "Market update: tech stocks rally"
    sample_timestamp
  = Ok None.
Proof. vm_compute. reflexivity. Qed.

(** No clamp, at two answers.  The validation turns a payload whose confidence is
    1.5 into a record whose confidence is 1.5, outside the unit interval, and
    so does [parse_message] with the escaped prompt; a payload whose
    confidence is [null] stops the validation with [TypeError], and
    [parse_message] then returns no signal instead of a record with 0.5. *)
Lemma confidence_is_not_clamped :
  parse_message_data (lib := sample_library) eager_data sample_message
    sample_timestamp = Ok (Some eager_signal)
  /\ parse_message_with (lib := sample_library) PARSE_PROMPT_escaped
       (answering eager_text) sample_message sample_timestamp
     = Ok (Some eager_signal)
  /\ in_unit_interval (confidence eager_signal) = false
  /\ parse_message_data (lib := sample_library) unsure_data sample_message
       sample_timestamp = Raise TypeError
  /\ parse_message_with (lib := sample_library) PARSE_PROMPT_escaped
       (answering unsure_text) sample_message sample_timestamp
     = Ok None.
Proof. repeat split; vm_compute; reflexivity. Qed.

(** X23 at the answer that has no confidence. *)
Lemma confidence_is_payload_value_witness :
  exists d,
    parse_message_payload (lib := sample_library) PARSE_PROMPT_escaped
      (answering bare_text) sample_message sample_timestamp = Ok (Some (JDict d))
    /\ py_float (lib := sample_library) (dict_get "confidence" (JFloat 0.5%float) d)
       = Ok (confidence bare_signal)
    /\ (dict_lookup "confidence" d = None -> confidence bare_signal = 0.5%float)
    /\ (forall f, dict_lookup "confidence" d = Some (JFloat f) ->
                  confidence bare_signal = f).
Proof.
  apply (proj1 (confidence_is_payload_value (lib := sample_library)
                  PARSE_PROMPT_escaped (answering bare_text)
                  sample_message sample_timestamp) bare_signal).
  vm_compute. reflexivity.
Defined.

(** C3 at the answer that is no signal, and at the record of Scenario A. *)
Lemma validation_completeness_witness :
  parse_message_with (lib := sample_library) PARSE_PROMPT_escaped
    (answering not_a_signal_text) sample_message sample_timestamp = Ok None
  /\ ticker sample_signal <> EmptyString
  /\ upper (ticker sample_signal) = ticker sample_signal
  /\ (transaction_type sample_signal = "BUY"
      \/ transaction_type sample_signal = "SELL").
Proof.
  split.
  - apply (proj1 (validation_completeness (lib := sample_library)
                    PARSE_PROMPT_escaped (answering not_a_signal_text)
                    sample_message sample_timestamp) not_a_signal_data).
    + vm_compute. reflexivity.
    + left. exists [("is_signal", JBool false)]. split; reflexivity.
  - apply (proj2 (validation_completeness (lib := sample_library)
                    PARSE_PROMPT_escaped (answering sample_text)
                    sample_message sample_timestamp) sample_signal).
    vm_compute. reflexivity.
Defined.

(** C6 at a rate-limited client, and at a batch of two messages of which
    the first meets a connection error. *)
Lemma extraction_faults_are_isolated_witness :
  parse_message_with (lib := sample_library) PARSE_PROMPT_escaped
    (failing (APIError RateLimitError)) sample_message sample_timestamp = Ok None
  /\ exists found,
      parse_messages (lib := sample_library) PARSE_PROMPT_escaped
        (fun i => if Nat.even i then failing (APIError APIConnectionError)
                  else answering sample_text)
        0 [(7, sample_message, sample_timestamp);
           (5, sample_message, sample_timestamp)] []
      = Ok found.
Proof.
  pose proof (extraction_faults_are_isolated (lib := sample_library)
                PARSE_PROMPT_escaped) as (_ & Api & _ & _ & Loop).
  split.
  - apply (Api _ _ _ RateLimitError). reflexivity.
  - apply Loop. intros j prompt e. destruct (Nat.even j); simpl.
    + intros [= <-]. reflexivity.
    + discriminate.
Defined.

(** C7 at a message of 600 characters. *)
Lemma raw_message_truncated_witness :
  raw_message long_signal = slice_to 500 long_message
  /\ (exists rest, long_message = (raw_message long_signal ++ rest)%string)
  /\ ((500 < String.length long_message)%nat ->
      String.length (raw_message long_signal) = 500%nat)
  /\ ((String.length long_message <= 500)%nat ->
      raw_message long_signal = long_message).
Proof.
  apply (raw_message_truncated (lib := sample_library) PARSE_PROMPT_escaped
           (answering sample_text) long_message sample_timestamp long_signal).
  vm_compute. reflexivity.
Defined.

(** C8 at the answer that has no date. *)
Lemma signal_date_fallback_witness :
  exists d,
    parse_message_payload (lib := sample_library) PARSE_PROMPT_escaped
      (answering bare_text) sample_message sample_timestamp = Ok (Some (JDict d))
    /\ (dict_lookup "signal_date" d = None ->
        signal_date bare_signal = JStr (slice_to 10 sample_timestamp))
    /\ (dict_lookup "signal_date" d = Some (JStr EmptyString) ->
        signal_date bare_signal = JStr (slice_to 10 sample_timestamp))
    /\ (forall s, s <> EmptyString ->
                  dict_lookup "signal_date" d = Some (JStr s) ->
                  signal_date bare_signal = JStr s).
Proof.
  apply (signal_date_fallback (lib := sample_library) PARSE_PROMPT_escaped
           (answering bare_text) sample_message sample_timestamp bare_signal).
  vm_compute. reflexivity.
Defined.

(** X24 at a store that does not exist, and at a store that has a watermark
    for another channel only. *)
Lemma degraded_storage_reads_zero_witness :
  get_last_message_id sample_channel fresh_world = (Ok (JInt 0), fresh_world)
  /\ get_last_message_id 42 resumed_world = (Ok (JInt 0), resumed_world).
Proof.
  split.
  - apply degraded_storage_reads_zero. left. reflexivity.
  - apply degraded_storage_reads_zero. right. right. right.
    exists (state_with_watermark 4). split; [reflexivity|].
    eexists. split; [reflexivity|]. right.
    eexists. split; [reflexivity|]. left. reflexivity.
Defined.

Lemma deduplicating_well_behaved (before : list Payload) (payload : Payload) :
  well_behaved (deduplicating before payload).
Proof. unfold deduplicating. destruct (existsb _ before); exact I. Qed.

(** C10 at a batch of three signals, the third a repeat of the first. *)
Lemma batch_counts_are_conserved_witness :
  exists r w',
    send_signals_batch deduplicating sample_webhook
      [sample_signal; bare_signal; sample_signal] fresh_world = (Ok r, w')
    /\ Batch.total r = 3
    /\ Batch.success r + Batch.duplicates r + Batch.failed r = Batch.total r
    /\ Z.of_nat (length (Batch.errors r)) = Batch.failed r.
Proof.
  destruct (batch_counts_are_conserved deduplicating sample_webhook
              [sample_signal; bare_signal; sample_signal] fresh_world)
    as [Counts Returns].
  destruct (Returns deduplicating_well_behaved) as (r & w' & E).
  exists r, w'. split; [exact E|]. exact (Counts r w' E).
Defined.



(** C9 at the two stores: the read raises, and so does the incremental run
    that starts with it, before anything else happens. *)
Lemma corrupt_store_stops_the_run :
  get_last_message_id sample_channel garbled_world
  = (Raise UnicodeDecodeError, garbled_world)
  /\ get_last_message_id sample_channel list_world
     = (Raise AttributeError, list_world)
  /\ run_pipeline (lib := sample_library) sample_telegram
       (fun _ => answering sample_text) deduplicating (Some sample_webhook)
       sample_channel false false None garbled_world
     = (Raise UnicodeDecodeError, garbled_world)
  /\ run_pipeline (lib := sample_library) sample_telegram
       (fun _ => answering sample_text) deduplicating (Some sample_webhook)
       sample_channel false false None list_world
     = (Raise AttributeError, list_world).
Proof. repeat split; vm_compute; reflexivity. Qed.

(* ===================================================================== *)
(** ** More of the extractor: [batch_parse_messages] *)
(* ===================================================================== *)

Section BatchParseFacts.
Context {lib : Library}.

Lemma batch_parse_loop_found (template : string) (client : nat -> anthropic_client)
  (messages : list (string * string)) :
  forall i signals found,
    batch_parse_loop template client i messages signals = Ok found ->
    found = signals ++ accepted_signals template client i messages.
Proof.
  induction messages as [|[text ts] rest IH]; intros i signals found H; simpl in *.
  - injection H as <-. now rewrite app_nil_r.
  - destruct (parse_message_with template (client i) text ts) as [[s|]|e];
      simpl in *; try discriminate.
    + apply IH in H. now rewrite <- app_assoc in H.
    + now apply IH in H.
Qed.

Lemma accepted_signals_length (template : string) (client : nat -> anthropic_client)
  (messages : list (string * string)) :
  forall i, (length (accepted_signals template client i messages) <= length messages)%nat.
Proof.
  induction messages as [|[text ts] rest IH]; intros i; simpl; [lia|].
  rewrite length_app. specialize (IH (S i)).
  destruct (parse_message_with template (client i) text ts) as [[s|]|e]; simpl; lia.
Qed.

Lemma parse_messages_batch_parse_loop (template : string)
  (client : nat -> anthropic_client) (messages : list (Z * string * string)) :
  forall i signals,
    parse_messages template client i messages signals
    = batch_parse_loop template client i
        (map (fun m => (snd (fst m), snd m)) messages) signals.
Proof.
  induction messages as [|[[mid text] ts] rest IH]; intros i signals; simpl.
  - reflexivity.
  - destruct (parse_message_with template (client i) text ts) as [o|e]; simpl;
      [apply IH|reflexivity].
Qed.

Lemma batch_parse_loop_returns (template : string) (client : nat -> anthropic_client)
  (messages : list (string * string)) :
  (forall j prompt e, client j prompt = ApiRaises e -> is_Exception e = true) ->
  forall i signals, exists found,
    batch_parse_loop template client i messages signals = Ok found.
Proof.
  intros Hc. induction messages as [|[text ts] rest IH]; intros i signals; simpl.
  - now exists signals.
  - destruct (parse_message_with template (client i) text ts) as [o|e] eqn:E; simpl.
    + apply IH.
    + apply parse_message_with_raise in E as (X & prompt & C).
      apply Hc in C. congruence.
Qed.

(** X4.  What [batch_parse_messages] returns is the list of the signals
    [parse_message] accepts, one at most per message and in the order of the
    messages; it returns whenever no call is interrupted by something that
    is not an [Exception]; the extraction loop of [run_pipeline] is the same
    loop; and with the prompt of the repository the list is empty. *)
Theorem batch_parse_messages_keeps_order (template : string)
  (client : nat -> anthropic_client) (messages : list (string * string)) :
  (forall found,
      batch_parse_messages_with template client messages = Ok found ->
      found = accepted_signals template client 0 messages
      /\ (length found <= length messages)%nat)
  /\ ((forall j prompt e, client j prompt = ApiRaises e -> is_Exception e = true) ->
      exists found, batch_parse_messages_with template client messages = Ok found)
  /\ (forall with_ids,
         map (fun m => (snd (fst m), snd m)) with_ids = messages ->
         parse_messages template client 0 with_ids []
         = batch_parse_messages_with template client messages)
  /\ batch_parse_messages client messages = Ok [].
Proof.
  unfold batch_parse_messages, batch_parse_messages_with. repeat split.
  - apply batch_parse_loop_found in H. exact H.
  - apply batch_parse_loop_found in H. subst found. apply accepted_signals_length.
  - intros Hc. now apply batch_parse_loop_returns.
  - intros with_ids <-. apply parse_messages_batch_parse_loop.
  - generalize 0%nat at 1. generalize (@nil ParsedSignal) at 1 2.
    induction messages as [|[text ts] rest IH]; intros signals i;
      cbn [batch_parse_loop].
    + reflexivity.
    + rewrite parse_message_with_parse_prompt. cbn [bind]. apply IH.
Qed.

End BatchParseFacts.

(* ===================================================================== *)
(** ** More of the store *)
(* ===================================================================== *)

Lemma str_of_int_injective (a b : Z) : str_of_int a = str_of_int b -> a = b.
Proof.
  unfold str_of_int. intros H.
  assert (forall z, NilZero.int_of_string (NilZero.string_of_int (Z.to_int z))
                    = Some (Z.to_int z)) as R.
  { intros z. apply NilZero.isi; destruct z; simpl; try discriminate.
    - intros [= E]. revert E. generalize (Pos.to_uint p) (DecimalPos.Unsigned.to_uint_nonnil p).
      intros u Hu E. now apply Hu.
    - intros [= E]. revert E. generalize (Pos.to_uint p) (DecimalPos.Unsigned.to_uint_nonnil p).
      intros u Hu E. now apply Hu. }
  pose proof (R a) as Ra. rewrite H, R in Ra. injection Ra as E.
  rewrite <- (DecimalZ.of_to a), <- (DecimalZ.of_to b). now rewrite E.
Qed.


Lemma processed_count_written (state : json) (w : world) :
  processed_count (written state w) = py_get state "total_processed" (JInt 0).
Proof. rewrite processed_count_eq. reflexivity. Qed.

Lemma dict_lookup_ensure_other (k k' : string) (d : list (string * json)) :
  k <> k' -> dict_lookup k (ensure_dict k' d) = dict_lookup k d.
Proof.
  intros N. unfold ensure_dict. destruct (dict_lookup k' d); [reflexivity|].
  now apply dict_lookup_set_other.
Qed.

(** The document [set_last_message_id] writes, from the three dicts it
    finds or creates on its way. *)
Lemma watermark_shape (channel_id : Z) (w : world) (v : json) :
  watermark channel_id w = Ok v ->
  exists d channels entry,
    fst (load_state w) = Ok (JDict d)
    /\ dict_get "channels" (JDict []) d = JDict channels
    /\ dict_get (str_of_int channel_id) (JDict []) channels = JDict entry.
Proof.
  rewrite watermark_eq.
  destruct (fst (load_state w)) as [state|e]; [|discriminate].
  unfold read_watermark. simpl.
  destruct state as [| | | | | |d]; try discriminate. simpl.
  destruct (dict_get "channels" (JDict []) d) as [| | | | | |ch] eqn:Ech;
    try discriminate. simpl.
  destruct (dict_get (str_of_int channel_id) (JDict []) ch) as [| | | | | |en] eqn:Een;
    try discriminate.
  intros _. now exists d, ch, en.
Qed.

Lemma set_last_message_id_eq (channel_id m : Z) (w : world)
  (d channels entry : list (string * json)) :
  fst (load_state w) = Ok (JDict d) ->
  dict_get "channels" (JDict []) d = JDict channels ->
  dict_get (str_of_int channel_id) (JDict []) channels = JDict entry ->
  set_last_message_id channel_id m w
  = (Ok tt, if state_writable w
            then written (with_watermark channel_id m d channels entry) w
            else unwritten w).
Proof.
  intros L C E. unfold set_last_message_id, io_bind, lift.
  rewrite load_state_eq, L. cbn [as_dict].
  rewrite dict_item_ensure, C. cbn [bind as_dict].
  rewrite dict_item_ensure, E. cbn [bind as_dict].
  apply save_state_eq.
Qed.

Lemma read_watermark_with_watermark (channel_id m c : Z)
  (d channels entry : list (string * json)) :
  dict_get "channels" (JDict []) d = JDict channels ->
  read_watermark c (with_watermark channel_id m d channels entry)
  = if c =? channel_id then Ok (JInt m) else read_watermark c (JDict d).
Proof.
  intros C. unfold read_watermark, with_watermark. cbn [py_get bind].
  unfold dict_get at 1. rewrite dict_lookup_set_same. cbn [py_get bind].
  rewrite C. cbn [py_get bind].
  destruct (Z.eqb_spec c channel_id) as [->|N].
  - unfold dict_get at 1. rewrite dict_lookup_set_same. cbn [py_get bind].
    unfold dict_get. now rewrite dict_lookup_set_same.
  - assert (str_of_int c <> str_of_int channel_id) as N'
      by (intros E; apply str_of_int_injective in E; contradiction).
    unfold dict_get.
    now rewrite (dict_lookup_set_other _ _ _ _ N'), (dict_lookup_ensure_other _ _ _ N').
Qed.

Lemma total_processed_with_watermark (channel_id m : Z)
  (d channels entry : list (string * json)) :
  py_get (with_watermark channel_id m d channels entry) "total_processed" (JInt 0)
  = py_get (JDict d) "total_processed" (JInt 0).
Proof.
  unfold with_watermark. cbn [py_get]. unfold dict_get.
  rewrite dict_lookup_set_other, dict_lookup_ensure_other;
    [reflexivity|discriminate|discriminate].
Qed.

Lemma set_last_message_id_processed_count (channel_id m : Z) (w : world) :
  keeps_on_failure w ->
  processed_count (snd (set_last_message_id channel_id m w)) = processed_count w.
Proof.
  intros K. unfold set_last_message_id.
  rewrite io_bind_eq, load_state_eq.
  destruct (fst (load_state w)) as [state|e] eqn:L; [|reflexivity].
  rewrite io_bind_eq. unfold lift.
  destruct (as_dict state) as [d|e] eqn:D; [|reflexivity].
  destruct state; try discriminate. injection D as ->.
  rewrite io_bind_eq.
  destruct (c <- dict_item "channels" (ensure_dict "channels" d) ;; as_dict c)
    as [ch|e]; [|reflexivity].
  rewrite io_bind_eq.
  destruct (e <- dict_item (str_of_int channel_id)
                   (ensure_dict (str_of_int channel_id) ch) ;; as_dict e)
    as [en|e]; [|reflexivity].
  rewrite save_state_eq. cbn [snd].
  destruct (state_writable w) eqn:W; [|now rewrite (unwritten_keeps w K W)].
  rewrite processed_count_written, processed_count_eq, L. cbn [bind py_get].
  unfold dict_get. now rewrite dict_lookup_set_other, dict_lookup_ensure_other.
Qed.

(** X5.  Once the watermark of a channel can be read and the state file can
    be written, [set_last_message_id] returns, [get_last_message_id] then
    reads the id that was set, and nothing else moves: the watermark of
    every other channel, the counter of delivered signals and the requests
    are as before. *)
Theorem set_then_get_last_message_id (channel_id m : Z) (w : world) (v : json) :
  watermark channel_id w = Ok v ->
  state_writable w = true ->
  fst (set_last_message_id channel_id m w) = Ok tt
  /\ get_last_message_id channel_id (snd (set_last_message_id channel_id m w))
     = (Ok (JInt m), snd (set_last_message_id channel_id m w))
  /\ (forall c, c <> channel_id ->
                watermark c (snd (set_last_message_id channel_id m w))
                = watermark c w)
  /\ processed_count (snd (set_last_message_id channel_id m w)) = processed_count w
  /\ requests (snd (set_last_message_id channel_id m w)) = requests w.
Proof.
  intros H W.
  destruct (watermark_shape channel_id w v H) as (d & ch & en & L & C & E).
  rewrite (set_last_message_id_eq channel_id m w d ch en L C E), W. cbn [fst snd].
  repeat split.
  - rewrite get_last_message_id_eq. cbn [fst load_state written state_file bind].
    rewrite (read_watermark_with_watermark channel_id m channel_id d ch en C).
    now rewrite Z.eqb_refl.
  - intros c N. rewrite watermark_written.
    rewrite (read_watermark_with_watermark channel_id m c d ch en C).
    apply Z.eqb_neq in N. rewrite N. now rewrite watermark_eq, L.
  - rewrite processed_count_written, total_processed_with_watermark.
    now rewrite processed_count_eq, L.
Qed.

(** X6.  When the counter of delivered signals reads an int and the state
    file can be written, [increment_processed_count] returns and the counter
    then reads the sum; the watermark of every channel and the requests are
    as before. *)
Theorem increment_processed_count_adds (count : Z) (w : world) (old : Z) :
  processed_count w = Ok (JInt old) ->
  state_writable w = true ->
  fst (increment_processed_count count w) = Ok tt
  /\ get_processed_count (snd (increment_processed_count count w))
     = (Ok (JInt (old + count)), snd (increment_processed_count count w))
  /\ (forall c, watermark c (snd (increment_processed_count count w))
                = watermark c w)
  /\ requests (snd (increment_processed_count count w)) = requests w.
Proof.
  intros H W. repeat split.
  - rewrite processed_count_eq in H.
    unfold increment_processed_count. rewrite io_bind_eq, load_state_eq.
    destruct (fst (load_state w)) as [state|e]; [|discriminate].
    cbn [bind] in H. rewrite io_bind_eq. unfold lift. rewrite H. cbn [bind py_add_int].
    destruct state; try discriminate. cbn [as_dict]. rewrite io_bind_eq.
    now rewrite save_state_eq.
  - rewrite processed_count_eq in H.
    unfold increment_processed_count. rewrite io_bind_eq, load_state_eq.
    destruct (fst (load_state w)) as [state|e]; [|discriminate].
    cbn [bind] in H. rewrite io_bind_eq. unfold lift. rewrite H. cbn [bind py_add_int].
    destruct state; try discriminate. cbn [as_dict]. rewrite io_bind_eq.
    rewrite save_state_eq, W. cbn [snd].
    unfold get_processed_count. rewrite io_bind_eq. cbn [load_state written state_file].
    unfold lift. cbn [py_get]. unfold dict_get. now rewrite dict_lookup_set_same.
  - intros c. apply increment_processed_count_watermark. now left.
  - apply increment_processed_count_frame.
Qed.

(** X7.  A state file that is missing, or that [load_state] gives up on
    ([IOError], [JSONDecodeError]), is replaced as a whole by the next
    update: [set_last_message_id] writes a document with that one watermark
    and nothing else, [increment_processed_count] one with the counter and
    nothing else.  When the write fails the update still returns, and the
    world is the one a failed write leaves. *)
Theorem update_replaces_an_unusable_store (w : world) :
  state_file w = NoFile
  \/ state_file w = FileError IOError
  \/ state_file w = FileError JSONDecodeError ->
  (forall channel_id m,
      set_last_message_id channel_id m w
      = (Ok tt, if state_writable w
                then written (only_watermark channel_id m) w else unwritten w))
  /\ (forall count,
         increment_processed_count count w
         = (Ok tt, if state_writable w
                   then written (JDict [("total_processed", JInt count)]) w
                   else unwritten w)).
Proof.
  intros H.
  assert (fst (load_state w) = Ok (JDict [])) as L.
  { unfold load_state. destruct H as [->|[->| ->]]; reflexivity. }
  split.
  - intros channel_id m.
    rewrite (set_last_message_id_eq channel_id m w [] [] [] L eq_refl eq_refl).
    unfold with_watermark, only_watermark, ensure_dict. cbn [dict_lookup dict_set].
    rewrite !String.eqb_refl. reflexivity.
  - intros count. unfold increment_processed_count, io_bind, lift.
    rewrite load_state_eq, L.
    cbn [bind py_get dict_get dict_lookup py_add_int as_dict Z.add dict_set].
    apply save_state_eq.
Qed.

(** X8.  When the state file cannot be opened for writing, [save_state],
    [set_last_message_id] and [increment_processed_count] leave the world
    exactly as it was, and [save_state] still returns: the failure of the
    write is not reported to the caller. *)
Theorem unwritable_store_is_left_alone (w : world) :
  state_writable w = false ->
  state_truncates w = false ->
  (forall state, save_state state w = (Ok tt, w))
  /\ (forall channel_id m, snd (set_last_message_id channel_id m w) = w)
  /\ (forall count, snd (increment_processed_count count w) = w)
  /\ (forall channel_id m v,
         watermark channel_id w = Ok v ->
         set_last_message_id channel_id m w = (Ok tt, w)).
Proof.
  intros W T.
  assert (forall state, save_state state w = (Ok tt, w)) as S.
  { intros state. rewrite save_state_eq, W. unfold unwritten. now rewrite T. }
  repeat split.
  - exact S.
  - intros channel_id m. unfold set_last_message_id.
    rewrite io_bind_eq, load_state_eq.
    destruct (fst (load_state w)) as [state|e]; [|reflexivity].
    rewrite io_bind_eq. unfold lift.
    destruct (as_dict state) as [d|e]; [|reflexivity].
    rewrite io_bind_eq.
    destruct (c <- dict_item "channels" (ensure_dict "channels" d) ;; as_dict c)
      as [ch|e]; [|reflexivity].
    rewrite io_bind_eq.
    destruct (e <- dict_item (str_of_int channel_id)
                     (ensure_dict (str_of_int channel_id) ch) ;; as_dict e)
      as [en|e]; [|reflexivity].
    now rewrite S.
  - intros count. unfold increment_processed_count.
    rewrite io_bind_eq, load_state_eq.
    destruct (fst (load_state w)) as [state|e]; [|reflexivity].
    rewrite io_bind_eq. unfold lift.
    destruct (t <- py_get state "total_processed" (JInt 0) ;; py_add_int t count)
      as [total|e]; [|reflexivity].
    rewrite io_bind_eq.
    destruct (as_dict state) as [d|e]; [|reflexivity].
    now rewrite S.
  - intros channel_id m v H.
    destruct (watermark_shape channel_id w v H) as (d & ch & en & L & C & E).
    rewrite (set_last_message_id_eq channel_id m w d ch en L C E), W.
    unfold unwritten. now rewrite T.
Qed.

(** X25.  When a write fails after [open] has emptied the file, the update
    still returns, and the store then reads as the empty state: the watermark of
    every channel and the counter read 0. *)
Theorem truncated_write_empties_the_store (w : world) :
  state_writable w = false ->
  state_truncates w = true ->
  (forall state, save_state state w = (Ok tt, damaged w))
  /\ (forall channel_id m v,
         watermark channel_id w = Ok v ->
         set_last_message_id channel_id m w = (Ok tt, damaged w))
  /\ (forall count old,
         processed_count w = Ok (JInt old) ->
         increment_processed_count count w = (Ok tt, damaged w))
  /\ (forall c, get_last_message_id c (damaged w) = (Ok (JInt 0), damaged w))
  /\ get_processed_count (damaged w) = (Ok (JInt 0), damaged w).
Proof.
  intros W T.
  assert (forall state, save_state state w = (Ok tt, damaged w)) as S.
  { intros state. rewrite save_state_eq, W. unfold unwritten. now rewrite T. }
  split; [exact S|]. split; [|split; [|split; [|reflexivity]]].
  - intros channel_id m v H.
    destruct (watermark_shape channel_id w v H) as (d & ch & en & L & C & E).
    rewrite (set_last_message_id_eq channel_id m w d ch en L C E), W.
    unfold unwritten. now rewrite T.
  - intros count old H. rewrite processed_count_eq in H.
    unfold increment_processed_count. rewrite io_bind_eq, load_state_eq.
    destruct (fst (load_state w)) as [state|e]; [|discriminate].
    cbn [bind] in H. rewrite io_bind_eq. unfold lift. rewrite H. cbn [bind py_add_int].
    destruct state; try discriminate. cbn [as_dict]. rewrite io_bind_eq.
    apply S.
  - intros c. reflexivity.
Qed.

(* ===================================================================== *)
(** ** More of the delivery client *)
(* ===================================================================== *)

Lemma send_signals_loop_requests (ep : endpoint) (self : WebhookClient)
  (signals : list ParsedSignal) :
  forall (acc : Batch.batch_results) (w : world),
  exists k,
    (k <= length signals)%nat
    /\ requests (snd (send_signals_loop ep self signals acc w))
       = requests w ++ map (make_payload self) (firstn k signals)
    /\ (forall r, fst (send_signals_loop ep self signals acc w) = Ok r ->
                  k = length signals).
Proof.
  induction signals as [|s rest IH]; intros acc w.
  - exists 0%nat. simpl. rewrite app_nil_r. repeat split; auto.
  - cbn [send_signals_loop]. rewrite io_bind_eq.
    pose proof (send_signal_requests ep self s w) as E.
    destruct (send_signal ep self s w) as [[sr|e] w1]; cbn [snd] in E.
    2:{ exists 1%nat. subst w1. cbn. repeat split; [lia|discriminate]. }
    assert (forall acc',
               exists k,
                 (k <= length (s :: rest))%nat
                 /\ requests (snd (send_signals_loop ep self rest acc' w1))
                    = requests w ++ map (make_payload self) (firstn k (s :: rest))
                 /\ (forall r, fst (send_signals_loop ep self rest acc' w1) = Ok r ->
                               k = length (s :: rest))) as F.
    { intros acc'. destruct (IH acc' w1) as (k & L & R & T).
      exists (S k). cbn [length firstn map]. repeat split.
      - lia.
      - rewrite R, E. cbn [requests]. now rewrite <- app_assoc.
      - intros r Hr. now rewrite (T r Hr). }
    destruct (Send.success sr); [apply F|].
    destruct (Send.status_code sr =? 409); [apply F|].
    rewrite io_bind_eq. unfold lift.
    destruct (error_message sr); [apply F|].
    exists 1%nat. subst w1. cbn. repeat split; [lia|discriminate].
Qed.

(** X9.  [send_signals_batch] sends one request per signal, in the order of
    the signals, each with the payload of its signal, and none twice: when
    it returns the requests sent are the payloads of all the signals, and
    when it raises they are the payloads of the signals up to the one it
    stopped at.  It never touches the state file. *)
Theorem batch_sends_in_order (ep : endpoint) (self : WebhookClient)
  (signals : list ParsedSignal) (w : world) :
  (exists k,
      (k <= length signals)%nat
      /\ requests (snd (send_signals_batch ep self signals w))
         = requests w ++ map (make_payload self) (firstn k signals))
  /\ (forall r,
         fst (send_signals_batch ep self signals w) = Ok r ->
         requests (snd (send_signals_batch ep self signals w))
         = requests w ++ map (make_payload self) signals)
  /\ state_file (snd (send_signals_batch ep self signals w)) = state_file w.
Proof.
  unfold send_signals_batch.
  destruct (send_signals_loop_requests ep self signals
              {| Batch.total := Z.of_nat (length signals); Batch.success := 0;
                 Batch.failed := 0; Batch.duplicates := 0; Batch.errors := [] |} w)
    as (k & L & R & T).
  repeat split.
  - now exists k.
  - intros r Hr. rewrite R, (T r Hr). now rewrite firstn_all.
  - apply send_signals_loop_frame.
Qed.

(* ===================================================================== *)
(** ** More of the pipeline *)
(* ===================================================================== *)

Lemma collect_from (limit : option Z) (messages : list Message) :
  forall (count : Z) (acc : list (Z * string * string)) (m : Z),
    0 <= count ->
    let texts := filter has_text messages in
    let kept :=
      match limit with
      | None => texts
      | Some n => if n =? 0 then texts else firstn (Z.to_nat (n - count)) texts
      end in
    collect limit messages count acc m
    = (acc ++ map to_parse kept, fold_left Z.max (map message_id kept) m).
Proof.
  induction messages as [|msg rest IH]; intros count acc m Hc; cbv zeta.
  - simpl. destruct limit as [n|]; [destruct (n =? 0)|];
      try rewrite firstn_nil; simpl; now rewrite app_nil_r.
  - cbn [collect filter]. change (has_text msg) with (negb (no_text msg)).
    destruct (no_text msg) eqn:T; cbn [negb].
    + now apply IH.
    + unfold over_limit.
      destruct limit as [n|].
      * destruct (n =? 0) eqn:Z0; cbn [negb andb].
        -- rewrite (IH (count + 1) _ _ ltac:(lia)). cbv zeta.
           unfold to_parse at 2. cbn [map fold_left]. now rewrite <- app_assoc.
        -- destruct (count + 1 >? n) eqn:G.
           ++ apply Z.gtb_lt in G.
              replace (Z.to_nat (n - count)) with 0%nat by lia.
              simpl. now rewrite app_nil_r.
           ++ assert (count + 1 <= n) as Le
                by (destruct (Z.gtb_spec (count + 1) n); [discriminate|lia]).
              rewrite (IH (count + 1) _ _ ltac:(lia)). cbv zeta.
              replace (Z.to_nat (n - count)) with (S (Z.to_nat (n - (count + 1))))
                by lia.
              cbn [firstn map fold_left]. unfold to_parse at 2.
              now rewrite <- app_assoc.
      * rewrite (IH (count + 1) _ _ ltac:(lia)). cbv zeta.
        cbn [map fold_left]. unfold to_parse at 2. now rewrite <- app_assoc.
Qed.

(** X10.  The collection loop in closed form: the messages kept are the
    messages that have a text, in the order they arrive, cut after [limit]
    of them when there is a limit other than 0; and [max_message_id] is the
    largest of [min_id] and the ids kept.  So a positive limit bounds the
    number kept, a negative one keeps nothing, and a message without text
    never counts against the limit nor raises the maximum. *)
Theorem collect_closed_form (limit : option Z) (messages : list Message)
  (min_id : Z) :
  let kept := within_limit limit (filter has_text messages) in
  collect limit messages 0 [] min_id
  = (map to_parse kept, fold_left Z.max (map message_id kept) min_id)
  /\ (forall n, limit = Some n -> 0 < n -> (length kept <= Z.to_nat n)%nat)
  /\ (forall n, limit = Some n -> n < 0 -> kept = [])
  /\ Forall (fun m => has_text m = true) kept.
Proof.
  cbv zeta. repeat split.
  - rewrite (collect_from limit messages 0 [] min_id ltac:(lia)). cbv zeta.
    unfold within_limit. destruct limit as [n|]; [|reflexivity].
    now rewrite Z.sub_0_r.
  - intros n -> Hn. unfold within_limit.
    replace (n =? 0) with false by (symmetry; apply Z.eqb_neq; lia).
    apply firstn_le_length.
  - intros n -> Hn. unfold within_limit.
    replace (n =? 0) with false by (symmetry; apply Z.eqb_neq; lia).
    replace (Z.to_nat n) with 0%nat by lia. reflexivity.
  - assert (Forall (fun m => has_text m = true) (filter has_text messages)) as F
      by (apply Forall_forall; intros m Hm; now apply filter_In in Hm).
    unfold within_limit. destruct limit as [n|]; [|assumption].
    destruct (n =? 0); [assumption|].
    rewrite <- (firstn_skipn (Z.to_nat n) (filter has_text messages)) in F.
    now apply Forall_app in F.
Qed.

(* ===================================================================== *)
(** ** The summary of a run *)
(* ===================================================================== *)

Lemma send_signals_loop_nonneg (ep : endpoint) (self : WebhookClient)
  (signals : list ParsedSignal) :
  forall (acc r : Batch.batch_results) (w w' : world),
    send_signals_loop ep self signals acc w = (Ok r, w') ->
    Batch.success acc <= Batch.success r
    /\ Batch.duplicates acc <= Batch.duplicates r
    /\ Batch.failed acc <= Batch.failed r.
Proof.
  induction signals as [|s rest IH]; intros acc r w w' H.
  - simpl in H. injection H as <- <-. lia.
  - cbn [send_signals_loop] in H. rewrite io_bind_eq in H.
    destruct (send_signal ep self s w) as [[sr|e] w1]; [|discriminate].
    destruct (Send.success sr).
    { apply IH in H. cbn in H. lia. }
    destruct (Send.status_code sr =? 409).
    { apply IH in H. cbn in H. lia. }
    rewrite io_bind_eq in H. unfold lift in H.
    destruct (error_message sr) as [msg|e]; [|discriminate].
    apply IH in H. cbn in H. lia.
Qed.


Lemma increment_processed_count_sum (count : Z) (w : world) (old : Z) :
  processed_count w = Ok (JInt old) ->
  state_writable w = true ->
  processed_count (snd (increment_processed_count count w)) = Ok (JInt (old + count)).
Proof.
  intros H W. rewrite processed_count_eq in H.
  unfold increment_processed_count. rewrite io_bind_eq, load_state_eq.
  destruct (fst (load_state w)) as [state|e]; [|discriminate].
  cbn [bind] in H. rewrite io_bind_eq. unfold lift. rewrite H. cbn [bind py_add_int].
  destruct state; try discriminate. cbn [as_dict]. rewrite io_bind_eq.
  rewrite save_state_eq, W. cbn [snd].
  rewrite processed_count_written. cbn [py_get]. unfold dict_get.
  now rewrite dict_lookup_set_same.
Qed.

Lemma deliver_summary (ep : endpoint) (wc : option WebhookClient) (dry_run : bool)
  (signals : list ParsedSignal) (n : Z) (w : world) (s : Summary.summary) :
  fst (deliver ep wc dry_run signals n w) = Ok s ->
  Summary.total_messages s = n
  /\ Summary.signals_found s = Z.of_nat (length signals)
  /\ 0 <= Summary.signals_sent s
  /\ 0 <= Summary.duplicates s
  /\ 0 <= Summary.errors s
  /\ (dry_run = true \/ wc = None ->
      Summary.signals_sent s = 0 /\ Summary.duplicates s = 0 /\ Summary.errors s = 0)
  /\ (dry_run = false -> wc <> None ->
      Summary.signals_sent s + Summary.duplicates s + Summary.errors s
      = Summary.signals_found s)
  /\ (forall old,
         processed_count w = Ok (JInt old) -> state_writable w = true ->
         processed_count (snd (deliver ep wc dry_run signals n w))
         = Ok (JInt (old + Summary.signals_sent s)))
  /\ (dry_run = true \/ wc = None ->
      requests (snd (deliver ep wc dry_run signals n w)) = requests w).
Proof.
  unfold deliver.
  assert (forall w0, fst (io_ret {| Summary.total_messages := n;
                            Summary.signals_found := Z.of_nat (length signals);
                            Summary.signals_sent := 0; Summary.duplicates := 0;
                            Summary.errors := 0 |} w0) = Ok s ->
          Summary.total_messages s = n
          /\ Summary.signals_found s = Z.of_nat (length signals)
          /\ 0 <= Summary.signals_sent s
          /\ 0 <= Summary.duplicates s
          /\ 0 <= Summary.errors s
          /\ Summary.signals_sent s = 0 /\ Summary.duplicates s = 0
          /\ Summary.errors s = 0) as Quiet.
  { intros w0 [= <-]. cbn. repeat split; lia. }
  destruct signals as [|s0 rest].
  { intros H. apply Quiet in H as (T & F & S1 & S2 & S3 & Z1 & Z2 & Z3).
    cbn [length] in *. repeat split; try assumption; try lia.
    intros old P W. cbn [snd io_ret]. rewrite Z1, Z.add_0_r. exact P. }
  destruct dry_run.
  { intros H. apply Quiet in H as (T & F & S1 & S2 & S3 & Z1 & Z2 & Z3).
    repeat split; try assumption; try lia; try discriminate.
    intros old P W. cbn [snd io_ret]. rewrite Z1, Z.add_0_r. exact P. }
  destruct wc as [client|].
  2:{ intros H. apply Quiet in H as (T & F & S1 & S2 & S3 & Z1 & Z2 & Z3).
      repeat split; try assumption; try lia; try congruence.
      intros old P W. cbn [snd io_ret]. rewrite Z1, Z.add_0_r. exact P. }
  rewrite io_bind_eq. unfold send_signals_batch.
  destruct (send_signals_loop_frame ep client (s0 :: rest)
              {| Batch.total := Z.of_nat (length (s0 :: rest)); Batch.success := 0;
                 Batch.failed := 0; Batch.duplicates := 0; Batch.errors := [] |} w)
    as [Ff Fw].
  destruct (send_signals_loop ep client (s0 :: rest) _ w) as [[r|e] w1] eqn:B;
    [|discriminate].
  cbn [snd] in Ff, Fw.
  pose proof (send_signals_loop_counts _ _ _ _ _ _ _ B) as (T & C & _).
  pose proof (send_signals_loop_nonneg _ _ _ _ _ _ _ B) as (N1 & N2 & N3).
  cbn [Batch.total Batch.success Batch.failed Batch.duplicates Batch.errors] in *.
  rewrite io_bind_eq.
  pose proof (fun old P W => increment_processed_count_sum (Batch.success r) w1 old P W)
    as I.
  destruct (increment_processed_count (Batch.success r) w1) as [[[]|e] w2];
    [|discriminate].
  intros [= <-]. cbn in *. repeat split; try lia;
    try match goal with Q : _ \/ _ |- _ => now destruct Q end.
  - intros old P W. apply I; [|congruence].
    rewrite <- P. apply processed_count_file. assumption.
  - intros [D|D]; discriminate.
Qed.

Section RunSummary.
Context {lib : Library}.

Variables (template : string) (tg : TelegramClient)
  (ac : nat -> anthropic_client) (ep : endpoint) (wc : option WebhookClient)
  (channel_id : Z) (limit : option Z).

Lemma parse_messages_length (messages : list (Z * string * string))
  (signals : list ParsedSignal) :
  parse_messages template ac 0 messages [] = Ok signals ->
  (length signals <= length messages)%nat.
Proof.
  rewrite parse_messages_batch_parse_loop. intros H.
  apply batch_parse_loop_found in H. subst signals. cbn [app].
  etransitivity; [apply accepted_signals_length|]. now rewrite length_map.
Qed.

(** A run that returns its summary either found nothing to parse, or went
    through the extraction, the delivery and the commit. *)
Lemma run_pipeline_with_returns (full_scan dry_run : bool) (w : world)
  (min_id : Z) (s : Summary.summary) :
  starts_from channel_id full_scan w min_id ->
  let run := run_pipeline_with template tg ac ep wc channel_id full_scan dry_run limit w in
  let collected := collect limit (iter_messages tg min_id) 0 [] min_id in
  fst run = Ok (RunSummary s) ->
  (fst collected = [] /\ s = empty_summary /\ snd run = w)
  \/ (exists signals,
         parse_messages template ac 0 (fst collected) [] = Ok signals
         /\ fst (deliver ep wc dry_run signals (Z.of_nat (length (fst collected))) w)
            = Ok s
         /\ snd run
            = snd (commit_watermark channel_id full_scan min_id (snd collected)
                     (snd (deliver ep wc dry_run signals
                             (Z.of_nat (length (fst collected))) w)))).
Proof.
  intros Hmin. cbv zeta.
  unfold run_pipeline_with. rewrite io_bind_eq.
  assert ((if full_scan then io_ret 0
           else v <~ get_last_message_id channel_id;; lift (as_int v)) w
          = (Ok min_id, w)) as ->.
  { unfold starts_from in Hmin. destruct full_scan.
    - now subst.
    - unfold watermark in Hmin. rewrite io_bind_eq.
      rewrite get_last_message_id_eq in Hmin |- *. simpl in Hmin. now rewrite Hmin. }
  destruct (get_entity tg channel_id) as [e|].
  { destruct e; simpl; discriminate. }
  destruct (fst (collect limit (iter_messages tg min_id) 0 [] min_id))
    as [|m0 ms] eqn:C.
  { intros [= <-]. left. repeat split. }
  rewrite io_bind_eq. unfold lift.
  destruct (parse_messages template ac 0 (m0 :: ms) []) as [signals|e];
    [|discriminate].
  rewrite io_bind_eq.
  destruct (deliver ep wc dry_run signals (Z.of_nat (length (m0 :: ms))) w)
    as [[s'|e] w2] eqn:D; [|discriminate].
  rewrite io_bind_eq.
  destruct (commit_watermark channel_id full_scan min_id _ w2) as [[[]|e] w3] eqn:K;
    [|discriminate].
  intros [= <-]. right. exists signals. rewrite D. cbn [fst snd]. rewrite K.
  repeat split.
Qed.

(** X11.  The summary of a run that returns: [total_messages] is the number
    of messages collected, [signals_found] lies between 0 and it, and no
    count is negative.  In a live run with a client the signals found are
    split between sent, duplicates and errors; in a dry run, and without a
    client, those three are 0. *)
Theorem run_summary_adds_up (full_scan dry_run : bool) (w : world)
  (min_id : Z) (s : Summary.summary) :
  starts_from channel_id full_scan w min_id ->
  fst (run_pipeline_with template tg ac ep wc channel_id full_scan dry_run limit w)
  = Ok (RunSummary s) ->
  Summary.total_messages s
  = Z.of_nat (length (fst (collect limit (iter_messages tg min_id) 0 [] min_id)))
  /\ 0 <= Summary.signals_found s <= Summary.total_messages s
  /\ 0 <= Summary.signals_sent s
  /\ 0 <= Summary.duplicates s
  /\ 0 <= Summary.errors s
  /\ (dry_run = true \/ wc = None ->
      Summary.signals_sent s = 0 /\ Summary.duplicates s = 0 /\ Summary.errors s = 0)
  /\ (dry_run = false -> wc <> None ->
      Summary.signals_sent s + Summary.duplicates s + Summary.errors s
      = Summary.signals_found s).
Proof.
  intros Hmin R.
  destruct (run_pipeline_with_returns full_scan dry_run w min_id s Hmin R)
    as [(C & -> & _)|(signals & P & D & _)].
  - rewrite C. cbn. repeat split; lia.
  - apply parse_messages_length in P.
    apply deliver_summary in D as (T & F & S1 & S2 & S3 & Q & L & _).
    split; [assumption|]. split; [lia|].
    repeat (split; [assumption|]). assumption.
Qed.

(** X13.  The counter of delivered signals after a run that returns its
    summary is the counter before plus [signals_sent], when it read an int
    and the state file can be written. *)
Theorem run_adds_signals_sent (full_scan dry_run : bool) (w : world)
  (min_id old : Z) (s : Summary.summary) :
  starts_from channel_id full_scan w min_id ->
  processed_count w = Ok (JInt old) ->
  state_writable w = true ->
  fst (run_pipeline_with template tg ac ep wc channel_id full_scan dry_run limit w)
  = Ok (RunSummary s) ->
  processed_count
    (snd (run_pipeline_with template tg ac ep wc channel_id full_scan dry_run limit w))
  = Ok (JInt (old + Summary.signals_sent s)).
Proof.
  intros Hmin P W R.
  destruct (run_pipeline_with_returns full_scan dry_run w min_id s Hmin R)
    as [(_ & -> & ->)|(signals & _ & D & ->)].
  - cbn. now rewrite Z.add_0_r.
  - apply deliver_summary in D as (_ & _ & _ & _ & _ & _ & _ & I & _).
    unfold commit_watermark.
    destruct (negb full_scan && _)%bool.
    + rewrite set_last_message_id_processed_count; [now apply I|].
      left. now rewrite (proj1 (deliver_frame ep wc dry_run signals _ w)).
    + now apply I.
Qed.


(** X12.  A run with nothing to do changes nothing.  When the channel
    cannot be accessed the run returns the error and the world is as before;
    another exception of the resolution leaves the run, the world as before;
    and when no message with a text is within the limit the run returns the
    summary of zeros and the world is as before: the state file is not
    rewritten. *)
Theorem run_with_nothing_to_do (full_scan dry_run : bool) (w : world)
  (min_id : Z) :
  starts_from channel_id full_scan w min_id ->
  let run := run_pipeline_with template tg ac ep wc channel_id full_scan dry_run limit w in
  (get_entity tg channel_id = EntityRaises ChannelPrivateError ->
   run = (Ok (RunError "No access to channel"), w))
  /\ (forall e, get_entity tg channel_id = EntityRaises e ->
                e <> ChannelPrivateError -> run = (Raise e, w))
  /\ (get_entity tg channel_id = Entity ->
      within_limit limit (filter has_text (iter_messages tg min_id)) = [] ->
      run = (Ok (RunSummary empty_summary), w)).
Proof.
  intros Hmin. cbv zeta.
  unfold run_pipeline_with. rewrite io_bind_eq.
  assert ((if full_scan then io_ret 0
           else v <~ get_last_message_id channel_id;; lift (as_int v)) w
          = (Ok min_id, w)) as ->.
  { unfold starts_from in Hmin. destruct full_scan.
    - now subst.
    - unfold watermark in Hmin. rewrite io_bind_eq.
      rewrite get_last_message_id_eq in Hmin |- *. simpl in Hmin. now rewrite Hmin. }
  repeat split.
  - intros ->. reflexivity.
  - intros e -> N. destruct e; try reflexivity. contradiction.
  - intros -> K.
    rewrite (collect_from limit (iter_messages tg min_id) 0 [] min_id ltac:(lia)).
    cbv zeta. cbn [fst app].
    unfold within_limit in K.
    destruct limit as [n|]; [destruct (n =? 0)|]; rewrite ?Z.sub_0_r, K;
      reflexivity.
Qed.


End RunSummary.

(* ===================================================================== *)
(** ** [main], and the function [send_signal] of the module *)
(* ===================================================================== *)

(** X14.  The startup of [main].  It exits, with code 1, exactly when a
    credential is missing, the two of the webhook counting in a live run
    only.  When it starts, the id is [int(API_ID)], a dry run has no
    webhook client, and a live run has the client of the two settings of the
    environment, both non-empty, with the timeout of 30 seconds. *)
Theorem main_startup_checks (int_of_str : string -> option Z) (args : Args)
  (env : Environ) :
  (main_startup int_of_str args env = SystemExit 1
   <-> credentials_missing args env = true)
  /\ (forall code, main_startup int_of_str args env = SystemExit code -> code = 1)
  /\ (forall api_id api_hash key wc,
         main_startup int_of_str args env = Started api_id api_hash key wc ->
         int_of_str (setting (API_ID env)) = Some api_id
         /\ API_HASH env = Some api_hash /\ api_hash <> EmptyString
         /\ ANTHROPIC_API_KEY env = Some key /\ key <> EmptyString
         /\ (args_dry_run args = true -> wc = None)
         /\ (args_dry_run args = false ->
             exists url k,
               CHECKLISTER_WEBHOOK_URL env = Some url /\ url <> EmptyString
               /\ CHECKLISTER_API_KEY env = Some k /\ k <> EmptyString
               /\ wc = Some {| webhook_url := url; api_key := k; timeout := 30 |})).
Proof.
  assert (forall v, missing v = false ->
                    exists s, v = Some s /\ s <> EmptyString /\ setting v = s) as Set_.
  { intros [s|]; [|discriminate]. destruct s; [discriminate|].
    intros _. eexists. repeat split. discriminate. }
  unfold main_startup, credentials_missing.
  destruct (missing (API_ID env)) eqn:A; cbn [orb andb].
  { repeat split; try reflexivity; try discriminate. now intros code [= <-]. }
  destruct (missing (API_HASH env)) eqn:H; cbn [orb andb].
  { repeat split; try reflexivity; try discriminate. now intros code [= <-]. }
  destruct (missing (ANTHROPIC_API_KEY env)) eqn:K; cbn [orb andb].
  { repeat split; try reflexivity; try discriminate. now intros code [= <-]. }
  destruct (args_dry_run args) eqn:D; cbn [negb orb andb].
  { destruct (int_of_str (setting (API_ID env))) as [id|].
    - split; [split; discriminate|]. split; [discriminate|].
      intros api_id api_hash key wc [= <- <- <- <-].
      apply Set_ in H as (h & -> & Hn & ->). apply Set_ in K as (k & -> & Kn & ->).
      repeat split; try assumption; try reflexivity. discriminate.
    - repeat split; discriminate. }
  destruct (missing (CHECKLISTER_WEBHOOK_URL env)) eqn:U; cbn [negb orb andb].
  { repeat split; try reflexivity; try discriminate. now intros code [= <-]. }
  destruct (missing (CHECKLISTER_API_KEY env)) eqn:Y; cbn [negb orb andb].
  { repeat split; try reflexivity; try discriminate. now intros code [= <-]. }
  destruct (int_of_str (setting (API_ID env))) as [id|].
  - split; [split; discriminate|]. split; [discriminate|].
    intros api_id api_hash key wc [= <- <- <- <-].
    apply Set_ in H as (h & -> & Hn & ->). apply Set_ in K as (k & -> & Kn & ->).
    apply Set_ in U as (u & -> & Un & ->). apply Set_ in Y as (y & -> & Yn & ->).
    repeat split; try assumption; try reflexivity; try discriminate.
    intros _. exists u, y. repeat split; assumption.
  - repeat split; discriminate.
Qed.

Section MainFacts.
Context {lib : Library}.

Variables (template : string) (int_of_str : string -> option Z)
  (tg : TelegramClient) (ac : nat -> anthropic_client) (ep : endpoint).




End MainFacts.

(** X16.  The function [send_signal] of the module posts one request, with
    the key it is given, and changes nothing of the state file.  For an
    endpoint that answers or fails as [requests] does, it returns a record:
    [success] for an answer 200 whose body is empty or JSON, and for a
    transport error the status code 0 with the text of the exception. *)
Theorem send_signal_function_posts_once (ep : endpoint) (signal : ParsedSignal)
  (key url : string) (w : world) :
  let sent := send_signal_function ep signal key url w in
  (exists payload,
      requests (snd sent) = requests w ++ [payload]
      /\ payload_api_key payload = key
      /\ payload_ticker payload = ticker signal
      /\ payload_source payload = "TELEGRAM")
  /\ state_file (snd sent) = state_file w
  /\ state_writable (snd sent) = state_writable w
  /\ (forall payload status body,
         requests (snd sent) = requests w ++ [payload] ->
         ep (requests w) payload = HttpResponse status body ->
         (forall msg, body <> BodyNotJson msg) ->
         exists r, fst sent = Ok r
                   /\ Send.status_code r = status
                   /\ Send.success r = (status =? 200)
                   /\ Send.error r = None)
  /\ (forall payload msg,
         requests (snd sent) = requests w ++ [payload] ->
         ep (requests w) payload = PostRaises (RequestException msg) ->
         fst sent = Ok {| Send.status_code := 0; Send.success := false;
                          Send.response := None; Send.error := Some msg |}).
Proof.
  cbv zeta. unfold send_signal_function, send_signal.
  set (payload := make_payload (new_WebhookClient url key) signal).
  assert (snd (match
            match ep (requests w) payload with
            | PostRaises e => Raise e
            | HttpResponse status body =>
                document <- response_json body;;
                Ok {| Send.status_code := status; Send.success := status =? 200;
                      Send.response := Some document; Send.error := None |}
            end
          with
          | Ok r => (Ok r, {| state_file := state_file w;
                              state_writable := state_writable w;
                              state_truncates := state_truncates w;
                              requests := requests w ++ [payload] |})
          | Raise (RequestException msg) =>
              (Ok {| Send.status_code := 0; Send.success := false;
                     Send.response := None; Send.error := Some msg |},
               {| state_file := state_file w; state_writable := state_writable w;
                  state_truncates := state_truncates w;
                  requests := requests w ++ [payload] |})
          | Raise e => (Raise e, {| state_file := state_file w;
                                    state_writable := state_writable w;
                                    state_truncates := state_truncates w;
                                    requests := requests w ++ [payload] |})
          end)
          = {| state_file := state_file w; state_writable := state_writable w;
               state_truncates := state_truncates w;
               requests := requests w ++ [payload] |}) as W.
  { destruct (ep (requests w) payload) as [e|status body].
    - destruct e; reflexivity.
    - destruct body; reflexivity. }
  rewrite W. cbn [requests state_file state_writable state_truncates].
  split; [|split; [reflexivity|split; [reflexivity|split]]].
  - exists payload. repeat split.
  - intros p status body E A B. apply app_inv_head in E. injection E as <-.
    rewrite A. destruct body as [|document|msg]; cbn.
    + eexists. repeat split.
    + eexists. repeat split.
    + now destruct (B msg).
  - intros p msg E A. apply app_inv_head in E. injection E as <-.
    rewrite A. reflexivity.
Qed.

(* ===================================================================== *)
(** ** telegram_export.py: [sanitize_filename] *)
(* ===================================================================== *)

Lemma sub_runs_Forall (P : ascii -> Prop) (class : ascii -> bool)
  (replacement : list ascii) :
  Forall P replacement ->
  forall (l : list ascii) (in_run : bool),
    Forall P l -> Forall P (sub_runs class replacement in_run l).
Proof.
  intros R. induction l as [|c rest IH]; intros in_run F; [constructor|].
  inversion F as [|? ? Pc Prest]; subst. cbn [sub_runs].
  destruct (class c).
  - destruct in_run; [now apply IH|]. apply Forall_app. split; [assumption|now apply IH].
  - constructor; [assumption|now apply IH].
Qed.

Lemma sub_runs_class (class : ascii -> bool) (replacement : list ascii) :
  Forall (fun c => class c = false) replacement ->
  forall (l : list ascii) (in_run : bool),
    Forall (fun c => class c = false) (sub_runs class replacement in_run l).
Proof.
  intros R. induction l as [|c rest IH]; intros in_run; [constructor|].
  cbn [sub_runs]. destruct (class c) eqn:C.
  - destruct in_run; [apply IH|]. apply Forall_app. split; [assumption|apply IH].
  - constructor; [assumption|apply IH].
Qed.

Lemma sub_runs_id (class : ascii -> bool) (replacement : list ascii) :
  forall (l : list ascii) (in_run : bool),
    Forall (fun c => class c = false) l ->
    sub_runs class replacement in_run l = l.
Proof.
  induction l as [|c rest IH]; intros in_run F; [reflexivity|].
  inversion F as [|? ? Pc Prest]; subst. cbn [sub_runs]. rewrite Pc.
  now rewrite IH.
Qed.

Lemma delete_Forall (P : ascii -> Prop) (class : ascii -> bool) (l : list ascii) :
  Forall P l -> Forall P (delete class l).
Proof.
  unfold delete. intros F. apply Forall_forall. intros c I.
  apply filter_In in I as [I _]. revert c I. now apply Forall_forall.
Qed.

Lemma delete_class (class : ascii -> bool) (l : list ascii) :
  Forall (fun c => class c = false) (delete class l).
Proof.
  unfold delete. apply Forall_forall. intros c I.
  apply filter_In in I as [_ I]. now apply negb_true_iff in I.
Qed.

Lemma delete_id (class : ascii -> bool) (l : list ascii) :
  Forall (fun c => class c = false) l -> delete class l = l.
Proof.
  unfold delete. induction 1 as [|c rest Pc _ IH]; [reflexivity|].
  cbn [filter]. rewrite Pc. cbn [negb]. now rewrite IH.
Qed.

Lemma drop_while_suffix (class : ascii -> bool) (l : list ascii) :
  exists pre, l = pre ++ drop_while class l.
Proof.
  induction l as [|c rest (pre & IH)]; [now exists []|].
  cbn [drop_while]. destruct (class c).
  - exists (c :: pre). cbn [app]. now rewrite <- IH.
  - now exists [].
Qed.

Lemma drop_while_hd (class : ascii -> bool) (l : list ascii) (c : ascii) :
  hd_error (drop_while class l) = Some c -> class c = false.
Proof.
  induction l as [|d rest IH]; [discriminate|].
  cbn [drop_while]. destruct (class d) eqn:D; [assumption|].
  now intros [= <-].
Qed.

Lemma drop_while_id (class : ascii -> bool) (l : list ascii) :
  (forall c, hd_error l = Some c -> class c = false) -> drop_while class l = l.
Proof.
  destruct l as [|c rest]; [reflexivity|]. intros H. cbn [drop_while].
  now rewrite (H c eq_refl).
Qed.

Lemma strip_chars_infix (class : ascii -> bool) (l : list ascii) :
  exists pre post, l = pre ++ strip_chars class l ++ post.
Proof.
  unfold strip_chars.
  destruct (drop_while_suffix class l) as (pre & E).
  destruct (drop_while_suffix class (rev (drop_while class l))) as (pre' & E').
  exists pre, (rev pre'). rewrite <- rev_app_distr, <- E', rev_involutive.
  exact E.
Qed.

Lemma strip_chars_Forall (P : ascii -> Prop) (class : ascii -> bool)
  (l : list ascii) :
  Forall P l -> Forall P (strip_chars class l).
Proof.
  intros F. destruct (strip_chars_infix class l) as (pre & post & E).
  rewrite E in F. apply Forall_app in F as [_ F]. now apply Forall_app in F as [F _].
Qed.

Lemma strip_chars_edges (class : ascii -> bool) (l : list ascii) :
  (forall c, hd_error (strip_chars class l) = Some c -> class c = false)
  /\ (forall c, hd_error (rev (strip_chars class l)) = Some c -> class c = false).
Proof.
  unfold strip_chars. split; intros c H.
  - destruct (drop_while_suffix class (rev (drop_while class l))) as (pre' & E').
    apply (f_equal (@rev ascii)) in E'. rewrite rev_involutive, rev_app_distr in E'.
    destruct (rev (drop_while class (rev (drop_while class l)))) as [|d rest];
      [discriminate|].
    injection H as ->. apply (drop_while_hd class l). now rewrite E'.
  - rewrite rev_involutive in H. now apply drop_while_hd in H.
Qed.

Lemma strip_chars_id (class : ascii -> bool) (l : list ascii) :
  (forall c, hd_error l = Some c -> class c = false) ->
  (forall c, hd_error (rev l) = Some c -> class c = false) ->
  strip_chars class l = l.
Proof.
  intros H L. unfold strip_chars.
  now rewrite (drop_while_id class l H), (drop_while_id class (rev l) L), rev_involutive.
Qed.

Lemma is_underscore_eq (c : ascii) : is_underscore c = true -> c = "_"%char.
Proof. unfold is_underscore. apply Ascii.eqb_eq. Qed.

Lemma no_double_sub_runs (l : list ascii) :
  forall in_run : bool,
    no_double in_run (sub_runs is_underscore ["_"%char] in_run l) = true.
Proof.
  induction l as [|c rest IH]; intros in_run; [reflexivity|].
  cbn [sub_runs]. destruct (is_underscore c) eqn:U.
  - destruct in_run; [apply IH|].
    cbn [app no_double]. change (is_underscore "_") with true. cbn [negb andb].
    apply IH.
  - cbn [no_double]. rewrite U. apply IH.
Qed.

Lemma no_double_weaken (l : list ascii) :
  no_double true l = true -> no_double false l = true.
Proof.
  destruct l as [|c rest]; [reflexivity|]. cbn [no_double].
  destruct (is_underscore c); [discriminate|trivial].
Qed.

Lemma no_double_app_l (l post : list ascii) :
  forall after, no_double after (l ++ post) = true -> no_double after l = true.
Proof.
  induction l as [|c rest IH]; intros after; [reflexivity|].
  cbn [app no_double]. destruct (is_underscore c); [|apply IH].
  intros H. apply andb_true_iff in H as [-> H]. now apply IH in H.
Qed.

Lemma no_double_app_r (pre l : list ascii) :
  forall after, no_double after (pre ++ l) = true -> no_double false l = true.
Proof.
  induction pre as [|c rest IH]; intros after.
  - cbn [app]. destruct after; [apply no_double_weaken|trivial].
  - cbn [app no_double]. destruct (is_underscore c); [|apply IH].
    intros H. apply andb_true_iff in H as [_ H]. now apply IH in H.
Qed.

Lemma no_double_pair (l1 l2 : list ascii) :
  forall after, no_double after (l1 ++ "_"%char :: "_"%char :: l2) = false.
Proof.
  induction l1 as [|c rest IH]; intros after.
  - cbn [app no_double]. change (is_underscore "_") with true. cbn [negb andb].
    apply andb_false_r.
  - cbn [app no_double]. destruct (is_underscore c); [|apply IH].
    rewrite IH. apply andb_false_r.
Qed.

Lemma no_double_id (l : list ascii) :
  forall in_run : bool,
    no_double in_run l = true -> sub_runs is_underscore ["_"%char] in_run l = l.
Proof.
  induction l as [|c rest IH]; intros in_run H; [reflexivity|].
  cbn [no_double] in H. cbn [sub_runs].
  destruct (is_underscore c) eqn:U.
  - apply andb_true_iff in H as [A H]. apply negb_true_iff in A. subst in_run.
    apply is_underscore_eq in U. subst c. cbn [app]. now rewrite IH.
  - now rewrite IH.
Qed.

Lemma is_clean_cases (c : ascii) :
  is_clean c = true
  <-> is_separator c = false /\ is_invalid c = false /\ is_non_ascii c = false.
Proof.
  unfold is_clean. rewrite !andb_true_iff, !negb_true_iff. tauto.
Qed.

Lemma sanitize_tidy (name : list ascii) : tidy (sanitize name).
Proof.
  unfold tidy, sanitize.
  set (s1 := sub_runs is_separator ["_"%char] false name).
  set (s3 := delete is_non_ascii (delete is_invalid s1)).
  set (s4 := sub_runs is_underscore ["_"%char] false s3).
  assert (Forall (fun c => is_clean c = true) s3) as F3.
  { apply Forall_forall. intros c I. apply is_clean_cases.
    assert (Forall (fun c => is_separator c = false) s3) as A.
    { apply delete_Forall, delete_Forall, sub_runs_class.
      repeat constructor. }
    assert (Forall (fun c => is_invalid c = false) s3) as B
      by apply delete_Forall, delete_class.
    assert (Forall (fun c => is_non_ascii c = false) s3) as C
      by apply delete_class.
    rewrite Forall_forall in A, B, C. auto. }
  assert (Forall (fun c => is_clean c = true) s4) as F4.
  { apply sub_runs_Forall; [|assumption]. repeat constructor. }
  split; [now apply strip_chars_Forall|].
  split; [|apply strip_chars_edges].
  destruct (strip_chars_infix is_edge s4) as (pre & post & E).
  pose proof (no_double_sub_runs s3 false) as N. fold s4 in N.
  rewrite E in N. apply no_double_app_r in N. now apply no_double_app_l in N.
Qed.

Lemma tidy_sanitize (l : list ascii) : tidy l -> sanitize l = l.
Proof.
  intros (F & N & H & L). unfold sanitize.
  assert (Forall (fun c => is_separator c = false) l
          /\ Forall (fun c => is_invalid c = false) l
          /\ Forall (fun c => is_non_ascii c = false) l) as (A & B & C).
  { rewrite !Forall_forall in *. repeat split; intros c I;
      apply F, is_clean_cases in I; tauto. }
  rewrite (sub_runs_id _ _ _ _ A), (delete_id _ _ B), (delete_id _ _ C).
  rewrite (no_double_id _ _ N). now apply strip_chars_id.
Qed.

Lemma tidy_default : tidy (list_ascii_of_string "unnamed_channel").
Proof.
  unfold tidy. split; [repeat constructor|]. split; [reflexivity|].
  split; intros c [= <-]; reflexivity.
Qed.

Lemma sanitize_filename_chars (name : string) :
  list_ascii_of_string (sanitize_filename name)
  = match sanitize (list_ascii_of_string name) with
    | [] => list_ascii_of_string "unnamed_channel"
    | c :: rest => c :: rest
    end.
Proof.
  unfold sanitize_filename. destruct (sanitize (list_ascii_of_string name)); [reflexivity|].
  apply list_ascii_of_string_of_list_ascii.
Qed.

Lemma sanitize_filename_tidy (name : string) :
  tidy (list_ascii_of_string (sanitize_filename name))
  /\ list_ascii_of_string (sanitize_filename name) <> [].
Proof.
  rewrite sanitize_filename_chars.
  pose proof (sanitize_tidy (list_ascii_of_string name)) as T.
  destruct (sanitize (list_ascii_of_string name)).
  - split; [apply tidy_default|discriminate].
  - split; [assumption|discriminate].
Qed.

(** X17.  The name [sanitize_filename] returns is not empty; each of its
    characters is ASCII, no whitespace, no hyphen and none of the characters
    that are invalid in filenames; it has no two underscores in a row; and
    it neither starts nor ends with an underscore or a dot. *)
Theorem sanitize_filename_is_safe (name : string) :
  let safe := list_ascii_of_string (sanitize_filename name) in
  sanitize_filename name <> EmptyString
  /\ Forall (fun c => is_re_space c = false /\ c <> "-"%char
                      /\ is_invalid c = false
                      /\ (nat_of_ascii c < 128)%nat) safe
  /\ (forall l1 l2, safe <> l1 ++ "_"%char :: "_"%char :: l2)
  /\ (forall c rest, safe = c :: rest -> c <> "_"%char /\ c <> "."%char)
  /\ (forall c pre, safe = pre ++ [c] -> c <> "_"%char /\ c <> "."%char).
Proof.
  cbv zeta.
  destruct (sanitize_filename_tidy name) as ((F & N & H & L) & E).
  assert (forall c, is_edge c = false -> c <> "_"%char /\ c <> "."%char) as Edge.
  { intros c. unfold is_edge. intros X. apply orb_false_iff in X as [X Y].
    apply Ascii.eqb_neq in X, Y. now split. }
  split; [|split; [|split; [|split]]].
  - intros Z. rewrite Z in E. now apply E.
  - apply Forall_forall. intros c I. rewrite Forall_forall in F.
    apply F, is_clean_cases in I as (A & B & C).
    unfold is_separator in A. apply orb_false_iff in A as [A A'].
    apply Ascii.eqb_neq in A'. unfold is_non_ascii in C.
    apply Nat.leb_gt in C. repeat split; assumption.
  - intros l1 l2 X. rewrite X, no_double_pair in N. discriminate.
  - intros c rest X. apply Edge, H. now rewrite X.
  - intros c pre X. apply Edge, L. rewrite X, rev_app_distr. reflexivity.
Qed.

(** X18.  [sanitize_filename] changes nothing of a name it has returned. *)
Theorem sanitize_filename_idempotent (name : string) :
  sanitize_filename (sanitize_filename name) = sanitize_filename name.
Proof.
  destruct (sanitize_filename_tidy name) as (T & E).
  unfold sanitize_filename at 1. rewrite (tidy_sanitize _ T).
  destruct (list_ascii_of_string (sanitize_filename name)) as [|c rest] eqn:L;
    [now destruct E|].
  rewrite <- L. apply string_of_list_ascii_of_string.
Qed.

(* ===================================================================== *)
(** ** telegram_export.py: [get_sender_name] and [get_entity_info] *)
(* ===================================================================== *)

Lemma append_not_empty_l (a b : string) : a <> EmptyString -> (a ++ b)%string <> EmptyString.
Proof. destruct a; [congruence|discriminate]. Qed.

Lemma append_nil_r (a : string) : (a ++ EmptyString)%string = a.
Proof. induction a as [|c a IH]; cbn; congruence. Qed.

Lemma append_assoc (a b c : string) :
  ((a ++ b) ++ c)%string = (a ++ b ++ c)%string.
Proof. induction a as [|x a IH]; cbn; congruence. Qed.

Lemma append_of_lists (a b : list ascii) :
  string_of_list_ascii (a ++ b)
  = (string_of_list_ascii a ++ string_of_list_ascii b)%string.
Proof. induction a as [|x a IH]; cbn; congruence. Qed.

Lemma present_not_empty (v : option string) :
  missing v = false -> setting v <> EmptyString.
Proof. destruct v as [[|c s]|]; cbn; congruence. Qed.

Lemma join_spaces_not_empty (p : string) (rest : list string) :
  p <> EmptyString -> join_spaces (p :: rest) <> EmptyString.
Proof.
  intros H. cbn [join_spaces]. destruct rest; [assumption|].
  now apply append_not_empty_l.
Qed.

(** X19.  [get_sender_name] never returns an empty name for no sender, a
    user, a channel or a chat; for a sender of another type it returns
    [str(sender.id)] as it is.  A user with a first or a last name is shown
    with it at the front, and a user with neither, but a username, is shown
    as [@username]. *)
Theorem get_sender_name_is_not_empty (sender : Sender) :
  match sender with
  | OtherSender (Some id_text) => get_sender_name sender = id_text
  | OtherSender None => get_sender_name sender = "Unknown"
  | User first_name last_name username id =>
      get_sender_name sender <> EmptyString
      /\ (missing first_name = false ->
          exists rest, get_sender_name sender = (setting first_name ++ rest)%string)
      /\ (missing first_name = true -> missing last_name = false ->
          exists rest, get_sender_name sender = (setting last_name ++ rest)%string)
      /\ (missing first_name = true -> missing last_name = true ->
          missing username = false ->
          get_sender_name sender = ("@" ++ setting username)%string)
  | _ => get_sender_name sender <> EmptyString
  end.
Proof.
  destruct sender as [|first_name last_name username id|title id|[id_text|]];
    try reflexivity; try discriminate.
  - cbn [get_sender_name].
    destruct (missing first_name) eqn:F, (missing last_name) eqn:L,
      (missing username) eqn:U; cbn [app join_spaces];
      (split; [|split; [|split]]); try discriminate; try reflexivity;
      try (intros; apply append_not_empty_l);
      try (now apply present_not_empty);
      try (intros _; eexists; reflexivity);
      try (intros _ _; eexists; reflexivity).
    + intros _ _. exists EmptyString. symmetry. apply append_nil_r.
    + intros _. exists EmptyString. symmetry. apply append_nil_r.
    + now apply append_not_empty_l, present_not_empty.
    + intros _.
      exists ((" " ++ setting last_name) ++ " (@" ++ setting username ++ ")")%string.
      now rewrite append_assoc.
  - cbn [get_sender_name]. destruct (missing title) eqn:T; [discriminate|].
    now apply present_not_empty.
Qed.

(** X20.  [get_entity_info] returns a display name and a filename that are
    not empty, for every entity.  The filename is the username when there is
    one, the sanitized title when there is a title and no username, and
    [channel_] with the id otherwise. *)
Theorem get_entity_info_names (entity : EntityInfo) :
  fst (get_entity_info entity) <> EmptyString
  /\ snd (get_entity_info entity) <> EmptyString
  /\ (missing (entity_username entity) = false ->
      snd (get_entity_info entity) = setting (entity_username entity))
  /\ (missing (entity_username entity) = true ->
      missing (entity_title entity) = false ->
      fst (get_entity_info entity) = setting (entity_title entity)
      /\ tidy (list_ascii_of_string (snd (get_entity_info entity))))
  /\ (missing (entity_username entity) = true ->
      missing (entity_title entity) = true ->
      snd (get_entity_info entity)
      = ("channel_" ++ str_of_int (entity_id entity))%string).
Proof.
  unfold get_entity_info.
  destruct (missing (entity_username entity)) eqn:U; cbn [negb fst snd].
  - destruct (missing (entity_title entity)) eqn:T; cbn [negb fst snd].
    + repeat split; try discriminate.
    + destruct (sanitize_filename_tidy (setting (entity_title entity))) as (Ti & E).
      split; [now apply present_not_empty|].
      split; [intros Z; rewrite Z in E; now apply E|].
      split; [discriminate|]. split; [|discriminate].
      intros _ _. split; [reflexivity|assumption].
  - split; [discriminate|]. split; [now apply present_not_empty|].
    repeat split; discriminate.
Qed.

(* ===================================================================== *)
(** ** telegram_export.py: [extract_urls] *)
(* ===================================================================== *)

Lemma add_url_In (url : string) (urls : list string) (u : string) :
  In u (add_url url urls) <-> In u urls \/ u = url.
Proof.
  unfold add_url. destruct (existsb (String.eqb url) urls) eqn:E.
  - apply existsb_exists in E as (x & I & X). apply String.eqb_eq in X. subst x.
    split; [auto|]. intros [H| ->]; assumption.
  - rewrite in_app_iff. cbn [In]. intuition congruence.
Qed.

Lemma add_url_NoDup (url : string) (urls : list string) :
  NoDup urls -> NoDup (add_url url urls).
Proof.
  intros N. unfold add_url. destruct (existsb (String.eqb url) urls) eqn:E;
    [assumption|].
  apply NoDup_app; [assumption|repeat constructor; intros []|].
  intros x I [<-|[]].
  assert (existsb (String.eqb url) urls = true) as T.
  { apply existsb_exists. exists url. split; [assumption|apply String.eqb_refl]. }
  congruence.
Qed.

Lemma entity_urls_spec (text : option string) (entities : list MessageEntity) :
  forall urls : list string,
    (NoDup urls -> NoDup (entity_urls text entities urls))
    /\ forall u, In u (entity_urls text entities urls)
                 <-> In u urls \/ In u (flat_map (entity_url text) entities).
Proof.
  induction entities as [|e rest IH]; intros urls.
  - cbn. split; [trivial|]. intros u. tauto.
  - cbn [entity_urls flat_map].
    set (urls' := match e with
                  | MessageEntityUrl offset length =>
                      if missing text then urls
                      else add_url (substring offset length (setting text)) urls
                  | MessageEntityTextUrl url =>
                      if missing url then urls else add_url (setting url) urls
                  | OtherEntity => urls
                  end).
    assert ((NoDup urls -> NoDup urls')
            /\ forall u, In u urls' <-> In u urls \/ In u (entity_url text e))
      as (N & I).
    { subst urls'. destruct e as [offset length|url|]; cbn [entity_url].
      - destruct (missing text).
        + split; [trivial|]. intros u. cbn. tauto.
        + split; [apply add_url_NoDup|]. intros u. rewrite add_url_In. cbn.
          intuition congruence.
      - destruct (missing url).
        + split; [trivial|]. intros u. cbn. tauto.
        + split; [apply add_url_NoDup|]. intros u. rewrite add_url_In. cbn.
          intuition congruence.
      - split; [trivial|]. intros u. cbn. tauto. }
    destruct (IH urls') as (N' & I'). split; [auto|].
    intros u. rewrite I', I, in_app_iff. tauto.
Qed.

Lemma fold_add_url_spec (found : list string) :
  forall urls : list string,
    (NoDup urls -> NoDup (fold_left (fun urls url => add_url url urls) found urls))
    /\ forall u, In u (fold_left (fun urls url => add_url url urls) found urls)
                 <-> In u urls \/ In u found.
Proof.
  induction found as [|f rest IH]; intros urls.
  - cbn. split; [trivial|]. intros u. tauto.
  - cbn [fold_left]. destruct (IH (add_url f urls)) as (N & I).
    split; [intros D; now apply N, add_url_NoDup|].
    intros u. rewrite I, add_url_In. cbn. intuition congruence.
Qed.

(** X21.  [extract_urls] returns no URL twice, and it returns exactly the
    URLs of the entities of the message and the matches of the URL pattern
    in its text. *)
Theorem extract_urls_has_no_duplicates (message : ExportMessage) :
  NoDup (extract_urls message)
  /\ forall u,
      In u (extract_urls message)
      <-> In u (flat_map (entity_url (export_text message)) (entities_of message))
          \/ In u (text_urls message).
Proof.
  unfold extract_urls, entities_of, text_urls.
  set (urls := match export_entities message with
               | Some (e :: entities) =>
                   entity_urls (export_text message) (e :: entities) []
               | _ => []
               end).
  assert (NoDup urls
          /\ forall u, In u urls
                       <-> In u (flat_map (entity_url (export_text message))
                                   match export_entities message with
                                   | Some entities => entities
                                   | None => []
                                   end)) as (N & I).
  { subst urls. destruct (export_entities message) as [[|e entities]|].
    - split; [constructor|]. intros u. cbn. tauto.
    - destruct (entity_urls_spec (export_text message) (e :: entities) [])
        as (N & I).
      split; [apply N; constructor|]. intros u. rewrite I. cbn [In]. tauto.
    - split; [constructor|]. intros u. cbn. tauto. }
  destruct (missing (export_text message)).
  - split; [assumption|]. intros u. rewrite I. cbn [In]. tauto.
  - destruct (fold_add_url_spec
                (find_urls 0 (list_ascii_of_string (setting (export_text message))))
                urls) as (N' & I').
    split; [auto|]. intros u. rewrite I', I. tauto.
Qed.

Lemma after_prefix_app (prefix l rest : list ascii) :
  after_prefix prefix l = Some rest -> l = prefix ++ rest.
Proof.
  revert l. induction prefix as [|p prefix' IH]; intros l.
  - now intros [= ->].
  - destruct l as [|c l']; [discriminate|]. cbn [after_prefix].
    destruct (Ascii.eqb p c) eqn:E; [|discriminate].
    apply Ascii.eqb_eq in E. subst c. intros H. cbn [app]. now rewrite (IH _ H).
Qed.

Lemma take_while_prefix (class : ascii -> bool) (l : list ascii) :
  Forall (fun c => class c = true) (take_while class l)
  /\ exists post, l = take_while class l ++ post.
Proof.
  induction l as [|c rest (F & post & E)]; [split; [constructor|now exists []]|].
  cbn [take_while]. destruct (class c) eqn:C.
  - split; [now constructor|]. exists post. cbn [app]. now rewrite <- E.
  - split; [constructor|]. now exists (c :: rest).
Qed.

Lemma url_at_shape (l url : list ascii) :
  url_at l = Some url ->
  exists scheme rest post,
    (scheme = "http://" \/ scheme = "https://")
    /\ url = list_ascii_of_string scheme ++ rest
    /\ rest <> []
    /\ Forall (fun c => is_url_char c = true) rest
    /\ l = url ++ post.
Proof.
  assert (forall prefix,
             match after_prefix (list_ascii_of_string prefix) l with
             | Some rest =>
                 match take_while is_url_char rest with
                 | [] => None
                 | c :: run => Some (list_ascii_of_string prefix ++ c :: run)
                 end
             | None => None
             end = Some url ->
             exists rest post,
               url = list_ascii_of_string prefix ++ rest
               /\ rest <> []
               /\ Forall (fun c => is_url_char c = true) rest
               /\ l = url ++ post) as Scheme.
  { intros prefix H.
    destruct (after_prefix (list_ascii_of_string prefix) l) as [rest|] eqn:A;
      [|discriminate].
    apply after_prefix_app in A.
    destruct (take_while_prefix is_url_char rest) as (F & post & E).
    destruct (take_while is_url_char rest) as [|c run]; [discriminate|].
    injection H as <-. exists (c :: run), post.
    repeat split; try assumption; try discriminate.
    rewrite A, E. now rewrite <- app_assoc. }
  unfold url_at.
  destruct (match after_prefix (list_ascii_of_string "https://") l with
            | Some rest => _ | None => None end) as [u|] eqn:S.
  - intros [= <-]. apply Scheme in S as (rest & post & H).
    exists "https://", rest, post. tauto.
  - intros H. apply Scheme in H as (rest & post & H).
    exists "http://", rest, post. tauto.
Qed.

Lemma find_urls_shape (l : list ascii) :
  forall (skip : nat) (u : string),
    In u (find_urls skip l) ->
    exists scheme rest pre post,
      (scheme = "http://" \/ scheme = "https://")
      /\ u = (scheme ++ string_of_list_ascii rest)%string
      /\ rest <> []
      /\ Forall (fun c => is_url_char c = true) rest
      /\ l = pre ++ list_ascii_of_string u ++ post.
Proof.
  induction l as [|c rest IH]; intros skip u I; [destruct I|].
  assert (forall k, In u (find_urls k rest) ->
                    exists scheme tail pre post,
                      (scheme = "http://" \/ scheme = "https://")
                      /\ u = (scheme ++ string_of_list_ascii tail)%string
                      /\ tail <> []
                      /\ Forall (fun c => is_url_char c = true) tail
                      /\ c :: rest = pre ++ list_ascii_of_string u ++ post) as Later.
  { intros k H. apply IH in H as (scheme & tail & pre & post & S & U & T & F & E).
    exists scheme, tail, (c :: pre), post. repeat split; try assumption.
    cbn [app]. now rewrite <- E. }
  cbn [find_urls] in I. destruct skip as [|k]; [|now apply Later in I].
  destruct (url_at (c :: rest)) as [url|] eqn:A; [|now apply Later in I].
  destruct I as [<-|I]; [|now apply Later in I].
  apply url_at_shape in A as (scheme & tail & post & S & U & T & F & E).
  exists scheme, tail, [], post. repeat split; try assumption.
  - rewrite U, append_of_lists. now rewrite string_of_list_ascii_of_string.
  - cbn [app]. now rewrite list_ascii_of_string_of_list_ascii.
Qed.

(** X22.  Every URL that [extract_urls] takes from the text of a message is
    a piece of that text: [http://] or [https://], then one or more
    characters, none of them whitespace or one of the six delimiters. *)
Theorem text_urls_are_links (message : ExportMessage) (u : string) :
  In u (text_urls message) ->
  In u (extract_urls message)
  /\ exists scheme rest pre post,
      (scheme = "http://" \/ scheme = "https://")
      /\ u = (scheme ++ rest)%string
      /\ rest <> EmptyString
      /\ Forall (fun c => is_re_space c = false
                          /\ ~ In c ["<"; ">"; "034"; "'"; ")"; "]"]%char)
           (list_ascii_of_string rest)
      /\ export_text message = Some (pre ++ u ++ post)%string.
Proof.
  intros I. split.
  { unfold extract_urls. unfold text_urls in I.
    destruct (missing (export_text message)); [destruct I|].
    apply fold_add_url_spec. now right. }
  unfold text_urls in I.
  destruct (export_text message) as [text|] eqn:T; [|destruct I].
  cbn [missing setting] in I. destruct (is_empty text); [destruct I|].
  apply find_urls_shape in I as (scheme & rest & pre & post & S & U & R & F & E).
  exists scheme, (string_of_list_ascii rest), (string_of_list_ascii pre),
    (string_of_list_ascii post).
  split; [assumption|]. split; [assumption|].
  split; [destruct rest; [congruence|discriminate]|].
  split.
  - rewrite list_ascii_of_string_of_list_ascii. apply Forall_forall.
    intros c I. rewrite Forall_forall in F. apply F in I.
    unfold is_url_char in I. apply negb_true_iff, orb_false_iff in I as [A B].
    split; [assumption|]. intros M. unfold one_of in B.
    assert (existsb (Ascii.eqb c) ["<"; ">"; "034"; "'"; ")"; "]"]%char = true) as X.
    { apply existsb_exists. exists c. split; [assumption|apply Ascii.eqb_refl]. }
    congruence.
  - f_equal. rewrite <- (string_of_list_ascii_of_string text), E.
    now rewrite !append_of_lists, string_of_list_ascii_of_string.
Qed.

(* ===================================================================== *)
(** ** The statements above at the sample data *)
(* ===================================================================== *)

(** X5 at the store whose watermark is 4. *)
Lemma set_then_get_last_message_id_witness :
  get_last_message_id sample_channel
    (snd (set_last_message_id sample_channel 9 resumed_world))
  = (Ok (JInt 9), snd (set_last_message_id sample_channel 9 resumed_world)).
Proof.
  apply (set_then_get_last_message_id sample_channel 9 resumed_world (JInt 4));
    reflexivity.
Defined.

(** X6 at the same store, whose counter reads 0. *)
Lemma increment_processed_count_adds_witness :
  get_processed_count (snd (increment_processed_count 3 resumed_world))
  = (Ok (JInt (0 + 3)), snd (increment_processed_count 3 resumed_world)).
Proof.
  apply (increment_processed_count_adds 3 resumed_world 0); reflexivity.
Defined.

(** X7 at the store that does not exist yet. *)
Lemma update_replaces_an_unusable_store_witness :
  set_last_message_id sample_channel 7 fresh_world
  = (Ok tt, written (only_watermark sample_channel 7) fresh_world).
Proof.
  apply (update_replaces_an_unusable_store fresh_world). left. reflexivity.
Defined.

(** X8 at a store that cannot be written. *)
Lemma unwritable_store_is_left_alone_witness :
  set_last_message_id sample_channel 9 locked_world = (Ok tt, locked_world).
Proof.
  destruct (unwritable_store_is_left_alone locked_world eq_refl eq_refl)
    as (_ & _ & _ & K).
  apply (K sample_channel 9 (JInt 4)). reflexivity.
Defined.

(** X25 at the store on a full disk. *)
Lemma truncated_write_empties_the_store_witness :
  set_last_message_id sample_channel 7 full_disk_world
  = (Ok tt, damaged full_disk_world)
  /\ get_last_message_id sample_channel (damaged full_disk_world)
     = (Ok (JInt 0), damaged full_disk_world).
Proof.
  destruct (truncated_write_empties_the_store full_disk_world eq_refl eq_refl)
    as (_ & S & _ & G & _).
  split; [apply (S sample_channel 7 (JInt 4)); reflexivity|apply G].
Defined.

(** X11 at the live run on the store whose watermark is 4: one signal is
    sent, the other is its duplicate. *)
Lemma run_summary_adds_up_witness :
  Summary.signals_sent sample_summary + Summary.duplicates sample_summary
  + Summary.errors sample_summary = Summary.signals_found sample_summary.
Proof.
  apply (run_summary_adds_up (lib := sample_library) PARSE_PROMPT_escaped
           sample_telegram (fun _ => answering sample_text) deduplicating
           (Some sample_webhook) sample_channel None false false resumed_world 4
           sample_summary).
  - vm_compute. reflexivity.
  - vm_compute. reflexivity.
  - reflexivity.
  - discriminate.
Defined.

(** X12 at a store whose watermark is the newest message. *)
Lemma run_with_nothing_to_do_witness :
  run_pipeline_with (lib := sample_library) PARSE_PROMPT_escaped sample_telegram
    (fun _ => answering sample_text) deduplicating (Some sample_webhook)
    sample_channel false false None caught_up_world
  = (Ok (RunSummary empty_summary), caught_up_world).
Proof.
  apply (run_with_nothing_to_do (lib := sample_library) PARSE_PROMPT_escaped
           sample_telegram (fun _ => answering sample_text) deduplicating
           (Some sample_webhook) sample_channel None false false caught_up_world 7).
  - vm_compute. reflexivity.
  - reflexivity.
  - reflexivity.
Defined.

(** X13 at the live run of X11. *)
Lemma run_adds_signals_sent_witness :
  processed_count
    (snd (run_pipeline_with (lib := sample_library) PARSE_PROMPT_escaped
            sample_telegram (fun _ => answering sample_text) deduplicating
            (Some sample_webhook) sample_channel false false None resumed_world))
  = Ok (JInt (0 + Summary.signals_sent sample_summary)).
Proof.
  apply (run_adds_signals_sent (lib := sample_library) PARSE_PROMPT_escaped
           sample_telegram (fun _ => answering sample_text) deduplicating
           (Some sample_webhook) sample_channel None false false resumed_world 4 0
           sample_summary).
  - vm_compute. reflexivity.
  - reflexivity.
  - reflexivity.
  - vm_compute. reflexivity.
Defined.

(** X22 at the second link of the sample message. *)
Lemma text_urls_are_links_witness :
  In "http://t.me/x" (extract_urls sample_export).
Proof.
  apply (text_urls_are_links sample_export "http://t.me/x").
  vm_compute. right. left. reflexivity.
Defined.
